(** * sqldef, package [schema]: translation of parsed DDL into the schema model

    A shallow embedding of [schema/parser.go] and a verification of its
    documented behaviour.  The file follows the Go source function by
    function:

    - [castBool], [parseValue], [parseTable], [parseIndex], [parseDDL] and
      [parseDDLs] are the six functions of [parser.go];
    - the modules [strconv], [fmt], [utf8], [unicode] and [strings] hold the
      few functions of the Go standard library that [parser.go] calls, written
      after their documented behaviour;
    - the module [sqlparser] holds the syntax-tree types of the grammar
      package, restricted to the fields [parser.go] reads;
    - the grammar itself ([sqlparser.ParseWithMode]), the float decoder
      ([strconv.ParseFloat]) and the [%#v] printer are collaborators, taken
      as variables of the section [Translator]; of the float decoder the
      module [strconv] models what it accepts and what it returns on the
      rest, and leaves the rounding of an accepted number as a function.

    Go strings and byte slices are sequences of bytes, and so are the strings
    of [Stdlib.Strings.String]; [string(val.Val)] is therefore the identity.
    A Go pair [(T, error)] of which exactly one component is meaningful is a
    sum [T + error]; [parseDDLs], which returns both, is a pair with an
    optional error. *)

From Stdlib Require Import ZArith List String Ascii Bool Lia.
From Stdlib Require Import Floats.
Import ListNotations.

Local Open Scope string_scope.
Local Open Scope Z_scope.

(** ** Bytes *)

Definition byteZ (c : ascii) : Z := Z.of_N (N_of_ascii c).

Definition byte_is (c : ascii) (n : Z) : bool := byteZ c =? n.

Definition len (s : string) : Z := Z.of_nat (String.length s).

(** ** The Go standard library, as far as [parser.go] uses it *)

Module strconv.

(** [strconv.ErrSyntax] and [strconv.ErrRange], the two causes carried by a
    [*strconv.NumError]. *)
Inductive NumError : Set := ErrSyntax | ErrRange.

(** [int] is 64 bits wide on the platforms sqldef is built for. *)
Definition intSize : Z := 64.
Definition maxUint64 : Z := 2 ^ 64 - 1.
Definition maxInt64 : Z := 2 ^ 63 - 1.
Definition minInt64 : Z := - 2 ^ 63.

(** Two's complement wrap-around of [uint64], [int64] and [byte]. *)
Definition wrapU64 (z : Z) : Z := z mod 2 ^ 64.
Definition wrapI64 (z : Z) : Z := (z + 2 ^ 63) mod 2 ^ 64 - 2 ^ 63.
Definition wrapByte (z : Z) : Z := z mod 256.

(** [ParseBool]: accepts 1, t, T, TRUE, true, True, 0, f, F, FALSE, false,
    False; any other value is an error (and [false]). *)
Definition ParseBool (str : string) : bool * option NumError :=
  if existsb (String.eqb str) ["1"; "t"; "T"; "TRUE"; "true"; "True"]
  then (true, None)
  else if existsb (String.eqb str) ["0"; "f"; "F"; "FALSE"; "false"; "False"]
  then (false, None)
  else (false, Some ErrSyntax).

(** The digit loop of [ParseUint] for base 10 and 64 bits: [n] is the
    [uint64] accumulator.  A byte that is not a decimal digit is a syntax
    error with value 0; an overflow returns [maxUint64] with a range error
    at once, without looking at the bytes that follow. *)
Fixpoint parseUintLoop (s : string) (n : Z) : Z * option NumError :=
  match s with
  | EmptyString => (n, None)
  | String c s' =>
      if (48 <=? byteZ c) && (byteZ c <=? 57) then
        let d := byteZ c - 48 in
        let cutoff := maxUint64 / 10 + 1 in
        if cutoff <=? n then (maxUint64, Some ErrRange)
        else
          let n10 := wrapU64 (n * 10) in
          let n1 := wrapU64 (n10 + d) in
          if (n1 <? n10) || (maxUint64 <? n1) then (maxUint64, Some ErrRange)
          else parseUintLoop s' n1
      else (0, Some ErrSyntax)
  end.

Definition ParseUint10 (s : string) : Z * option NumError :=
  match s with
  | EmptyString => (0, Some ErrSyntax)
  | _ => parseUintLoop s 0
  end.

(** [ParseInt(s, 10, 0)]. *)
Definition ParseInt10 (s : string) : Z * option NumError :=
  match s with
  | EmptyString => (0, Some ErrSyntax)
  | String c0 rest =>
      let neg := byte_is c0 45 in
      let s1 := if byte_is c0 43 || byte_is c0 45 then rest else s in
      match ParseUint10 s1 with
      | (_, Some ErrSyntax) => (0, Some ErrSyntax)
      | (un, _) =>
          let cutoff := 2 ^ (intSize - 1) in
          if negb neg && (cutoff <=? un) then (cutoff - 1, Some ErrRange)
          else if neg && (cutoff <? un) then (- cutoff, Some ErrRange)
          else
            let n := wrapI64 un in
            (if neg then wrapI64 (- n) else n, None)
      end
  end.

(** The fast path of [Atoi]: the digit loop over an [int] accumulator. *)
Fixpoint atoiLoop (s : string) (n : Z) : option Z :=
  match s with
  | EmptyString => Some n
  | String ch s' =>
      let ch := wrapByte (byteZ ch - 48) in
      if 9 <? ch then None
      else atoiLoop s' (wrapI64 (n * 10 + ch))
  end.

(** [Atoi]: strings of 1 to 18 bytes take the fast path, all others go
    through [ParseInt(s, 10, 0)]. *)
Definition Atoi (s : string) : Z * option NumError :=
  let sLen := len s in
  if (0 <? sLen) && (sLen <? 19) then
    match s with
    | EmptyString => (0, Some ErrSyntax)
    | String c0 rest =>
        let signed := byte_is c0 45 || byte_is c0 43 in
        let s1 := if signed then rest else s in
        if signed && (len s1 <? 1) then (0, Some ErrSyntax)
        else
          match atoiLoop s1 0 with
          | None => (0, Some ErrSyntax)
          | Some n => (if byte_is c0 45 then wrapI64 (- n) else n, None)
          end
    end
  else ParseInt10 s.

(** *** [ParseFloat]

    What [ParseFloat(s, 64)] accepts, as of Go 1.13: the special values,
    decimal numbers and hexadecimal numbers with a binary exponent, with
    underscores between digits.  Only the conversion of an accepted number to
    the nearest [float64] is left out of the model and taken as the function
    [convert]. *)

(** An optional sign in front: [s] without it, and whether it is a minus. *)
Definition skipSign (s : string) : string :=
  match s with
  | String c rest => if byte_is c 43 || byte_is c 45 then rest else s
  | EmptyString => s
  end.

Definition hasMinus (s : string) : bool :=
  match s with
  | String c _ => byte_is c 45
  | EmptyString => false
  end.

(** [lower(c)], which is [c | ('x' - 'X')]. *)
Definition lower (c : ascii) : Z := Z.lor (byteZ c) 32.

Definition isDecimalDigit (c : ascii) : bool :=
  (48 <=? byteZ c) && (byteZ c <=? 57).

Definition isHexLetter (c : ascii) : bool :=
  (97 <=? lower c) && (lower c <=? 102).

(** The letters A to Z made small, the other bytes left alone, as
    [commonPrefixLenIgnoreCase] compares them. *)
Definition foldCase (c : ascii) : Z :=
  if (65 <=? byteZ c) && (byteZ c <=? 90) then byteZ c + 32 else byteZ c.

Fixpoint equalFold (s lowered : string) : bool :=
  match s, lowered with
  | EmptyString, EmptyString => true
  | String a s', String b lowered' =>
      (foldCase a =? byteZ b) && equalFold s' lowered'
  | _, _ => false
  end.

(** [special]: "inf" and "infinity" with an optional sign, and "nan", in
    any mix of capitals; the whole string has to be the word. *)
Definition special (s : string) : option float :=
  if equalFold (skipSign s) "inf" || equalFold (skipSign s) "infinity"
  then Some (if hasMinus s then neg_infinity else infinity)
  else if equalFold s "nan" then Some nan
  else None.

(** [underscoreOK]: an underscore stands between two digits, or between the
    base prefix and a digit.  [saw] is the last byte seen: 94 at the start,
    48 a digit or the base prefix, 95 an underscore, 33 anything else. *)
Fixpoint underscoreLoop (hex : bool) (s : string) (saw : Z) : bool :=
  match s with
  | EmptyString => negb (saw =? 95)
  | String c s' =>
      if isDecimalDigit c || (hex && isHexLetter c)
      then underscoreLoop hex s' 48
      else if byte_is c 95
      then if saw =? 48 then underscoreLoop hex s' 95 else false
      else if saw =? 95 then false
      else underscoreLoop hex s' 33
  end.

Definition underscoreOK (s : string) : bool :=
  match skipSign s with
  | String c0 (String c1 rest) =>
      if byte_is c0 48 &&
         ((lower c1 =? 98) || (lower c1 =? 111) || (lower c1 =? 120))
      then underscoreLoop (lower c1 =? 120) rest 48
      else underscoreLoop false (skipSign s) 94
  | s1 => underscoreLoop false s1 94
  end.

(** The mantissa loop of [readFloat]: what is left of [s] after it, and
    whether a digit was seen. *)
Fixpoint readMantissa (hex : bool) (s : string) (sawdot sawdigits : bool)
    : string * bool :=
  match s with
  | EmptyString => (s, sawdigits)
  | String c s' =>
      if byte_is c 95 then readMantissa hex s' sawdot sawdigits
      else if byte_is c 46
      then if sawdot then (s, sawdigits)
           else readMantissa hex s' true sawdigits
      else if isDecimalDigit c then readMantissa hex s' sawdot true
      else if hex && isHexLetter c then readMantissa hex s' sawdot true
      else (s, sawdigits)
  end.

(** The digits and underscores of the exponent. *)
Fixpoint readExponentDigits (s : string) : string :=
  match s with
  | EmptyString => s
  | String c s' =>
      if isDecimalDigit c || byte_is c 95 then readExponentDigits s' else s
  end.

(** [readFloat] accepts [s] and reads it to its end. *)
Definition numberSyntax (s : string) : bool :=
  let s1 := skipSign s in
  let hex :=
    match s1 with
    | String c0 (String c1 (String _ _)) => byte_is c0 48 && (lower c1 =? 120)
    | _ => false
    end in
  let s2 :=
    match s1 with
    | String _ (String _ rest) => if hex then rest else s1
    | _ => s1
    end in
  let '(rest, sawdigits) := readMantissa hex s2 false false in
  sawdigits &&
  match rest with
  | EmptyString => negb hex
  | String c afterE =>
      (lower c =? (if hex then 112 else 101)) &&
      match afterE with
      | EmptyString => false
      | String sign afterSign =>
          let digits :=
            if byte_is sign 43 || byte_is sign 45 then afterSign else afterE in
          match digits with
          | EmptyString => false
          | String d _ =>
              isDecimalDigit d &&
              match readExponentDigits digits with
              | EmptyString => true
              | _ => false
              end
          end
      end
  end &&
  underscoreOK s.

Definition floatSyntax (s : string) : bool :=
  match special s with
  | Some _ => true
  | None => numberSyntax s
  end.

(** [ParseFloat(s, 64)]: a special value, or what [convert] makes of an
    accepted number, or 0 and a syntax error. *)
Definition ParseFloat (convert : string -> float * option NumError)
    (s : string) : float * option NumError :=
  match special s with
  | Some f => (f, None)
  | None =>
      if numberSyntax s then convert s else (0%float, Some ErrSyntax)
  end.

End strconv.

Module fmt.

(** [fmt.Sprint] of a value whose underlying type is [bool]. *)
Definition Sprint_bool (b : bool) : string := if b then "true" else "false".

End fmt.

Module utf8.

Definition byte_of (z : Z) : ascii := ascii_of_N (Z.to_N z).

(** [utf8.EncodeRune] for the code points below the surrogate range and
    between it and U+FFFF, which is all the white space table needs. *)
Definition EncodeRune (r : Z) : list ascii :=
  if r <? 128 then [byte_of r]
  else if r <? 2048 then
    [byte_of (Z.lor 192 (Z.shiftr r 6));
     byte_of (Z.lor 128 (Z.land r 63))]
  else
    [byte_of (Z.lor 224 (Z.shiftr r 12));
     byte_of (Z.lor 128 (Z.land (Z.shiftr r 6) 63));
     byte_of (Z.lor 128 (Z.land r 63))].

End utf8.

Module unicode.

(** The code points with Unicode's White_Space property, as the ranges of
    [unicode.White_Space]; [unicode.IsSpace] is membership in them. *)
Definition White_Space : list (Z * Z) :=
  [ (9, 13); (32, 32); (133, 133); (160, 160); (5760, 5760);
    (8192, 8202); (8232, 8233); (8239, 8239); (8287, 8287);
    (12288, 12288) ].

Definition IsSpace (r : Z) : bool :=
  existsb (fun '(lo, hi) => (lo <=? r) && (r <=? hi)) White_Space.

Definition runesOf (range : Z * Z) : list Z :=
  let '(lo, hi) := range in
  map (fun i => lo + Z.of_nat i) (seq 0 (Z.to_nat (hi - lo + 1))).

Definition spaceRunes : list Z := flat_map runesOf White_Space.

End unicode.

Module strings.

Definition bytes := list ascii.

(** [strings.Split(s, sep)] for a separator of one byte, which is how
    [parseDDLs] calls it: the pieces of [s] between the occurrences of
    [sep], in order; [n] occurrences give [n + 1] pieces. *)
Fixpoint Split (s : string) (sep : ascii) : list string :=
  match s with
  | EmptyString => [EmptyString]
  | String c s' =>
      if Ascii.eqb c sep then EmptyString :: Split s' sep
      else
        match Split s' sep with
        | piece :: pieces => String c piece :: pieces
        | [] => [String c EmptyString]
        end
  end.

(** [strings.Join] with a separator of one byte. *)
Fixpoint Join (pieces : list string) (sep : ascii) : string :=
  match pieces with
  | [] => EmptyString
  | [piece] => piece
  | piece :: rest => piece ++ String sep (Join rest sep)
  end.

Fixpoint stripPrefix (p s : bytes) : option bytes :=
  match p, s with
  | [], _ => Some s
  | a :: p', b :: s' => if Ascii.eqb a b then stripPrefix p' s' else None
  | _ :: _, [] => None
  end.

(** The rest of [s] after its first rune when that rune is white space:
    a valid UTF-8 sequence decodes to a white space rune exactly when it is
    that rune's encoding. *)
Definition stripSpace (encodings : list bytes) (s : bytes) : option bytes :=
  fold_right
    (fun enc other =>
       match stripPrefix enc s with Some rest => Some rest | None => other end)
    None encodings.

Fixpoint trimLoop (encodings : list bytes) (fuel : nat) (s : bytes) : bytes :=
  match fuel with
  | O => s
  | S fuel' =>
      match stripSpace encodings s with
      | Some rest => trimLoop encodings fuel' rest
      | None => s
      end
  end.

Definition spaceEncodings : list bytes :=
  map utf8.EncodeRune unicode.spaceRunes.

(** [TrimLeftFunc(s, unicode.IsSpace)]: one unit of fuel per byte is
    enough, each step removes at least one. *)
Definition trimLeftSpace (s : bytes) : bytes :=
  trimLoop spaceEncodings (List.length s) s.

(** [TrimRightFunc(s, unicode.IsSpace)], run on the reversed bytes. *)
Definition trimRightSpace (s : bytes) : bytes :=
  rev (trimLoop (map (@rev ascii) spaceEncodings) (List.length s) (rev s)).

(** [strings.TrimSpace]: all leading and trailing white space, as defined
    by Unicode, removed. *)
Definition TrimSpace (s : string) : string :=
  string_of_list_ascii
    (trimRightSpace (trimLeftSpace (list_ascii_of_string s))).

End strings.

(** ** The syntax tree of package [sqlparser] *)

(** Modelled from the spec: the declarations of the grammar package are not
    among the sources.  Each struct is given the fields [parser.go] reads, a
    pointer that the source tests against [nil] or hands to a function that
    does is an [option], and [ValType] is the integer type it is in Go with
    the seven kinds the specification lists, numbered in that order.
    [parseTable] reads [stmt.TableSpec] without any test, and the
    specification gives it a CREATE TABLE node: the table specification is
    modelled as always there. *)

Module sqlparser.

Definition ValType := Z.
Definition StrVal : ValType := 0.
Definition IntVal : ValType := 1.
Definition FloatVal : ValType := 2.
Definition HexNum : ValType := 3.
Definition HexVal : ValType := 4.
Definition ValArg : ValType := 5.
Definition BitVal : ValType := 6.

Definition BoolVal := bool.
Definition ColumnKeyOption := Z.

Inductive ParserMode : Set := ParserModeMysql | ParserModePostgres.

Module SQLVal.
Record t : Set := { Type_ : ValType; Val : string }.
End SQLVal.

Module ColIdent.
Record t : Set := { val : string }.
Definition String (node : t) : string := val node.
End ColIdent.

Module TableIdent.
Record t : Set := { v : string }.
Definition String (node : t) : string := v node.
End TableIdent.

Module TableName.
Record t : Set := { Name : TableIdent.t; Qualifier : TableIdent.t }.
End TableName.

Module ColumnType.
Record t : Set :=
  { Type_ : string;
    NotNull : BoolVal;
    Autoincrement : BoolVal;
    Default : option SQLVal.t;
    Length : option SQLVal.t;
    Unsigned : BoolVal;
    Scale : option SQLVal.t;
    KeyOpt : ColumnKeyOption }.
End ColumnType.

Module ColumnDefinition.
Record t : Set := { Name : ColIdent.t; Type_ : ColumnType.t }.
End ColumnDefinition.

Module IndexInfo.
Record t : Set :=
  { Type_ : string; Name : ColIdent.t; Primary : bool; Unique : bool }.
End IndexInfo.

Module IndexColumn.
Record t : Set := { Column : ColIdent.t; Length : option SQLVal.t }.
End IndexColumn.

Module IndexDefinition.
Record t : Set := { Info : IndexInfo.t; Columns : list IndexColumn.t }.
End IndexDefinition.

Module TableSpec.
Record t : Set :=
  { Columns : list ColumnDefinition.t; Indexes : list IndexDefinition.t }.
End TableSpec.

Module IndexSpec.
Record t : Set := { Name : ColIdent.t; Unique : bool }.
End IndexSpec.

Module DDL.
Record t : Set :=
  { Action : string;
    Table : TableName.t;
    NewName : TableName.t;
    TableSpec : TableSpec.t;
    IndexSpec : option IndexSpec.t;
    IndexCols : list ColIdent.t }.
End DDL.

(** The [Statement] interface: a [*DDL], or a node of another dynamic
    type (select, insert, ...), of which only the type name matters. *)
Inductive Statement : Set :=
| DDLStmt (stmt : DDL.t)
| OtherStmt (typeName : string).

End sqlparser.

(** ** The schema model of package [schema] *)

(** Modelled from the spec: the declarations of [Value], [Column],
    [IndexColumn], [Index], [Table], the [DDL] implementations and
    [GeneratorMode] are not among the sources.  The structs carry the fields
    that the literals of [parser.go] set; a field that a literal leaves out
    holds Go's zero value. *)

Inductive ValueType : Set :=
| ValueTypeStr | ValueTypeInt | ValueTypeFloat | ValueTypeHexNum
| ValueTypeHex | ValueTypeValArg | ValueTypeBit.

Module Value.
Record t : Set :=
  { valueType : ValueType;
    raw : string;
    strVal : string;
    intVal : Z;
    floatVal : float;
    bitVal : bool }.

(** The assignments [ret.strVal = ...], [ret.intVal = ...],
    [ret.floatVal = ...] and [ret.bitVal = ...]. *)
Definition set_strVal (ret : t) (x : string) : t :=
  {| valueType := valueType ret; raw := raw ret; strVal := x;
     intVal := intVal ret; floatVal := floatVal ret; bitVal := bitVal ret |}.
Definition set_intVal (ret : t) (x : Z) : t :=
  {| valueType := valueType ret; raw := raw ret; strVal := strVal ret;
     intVal := x; floatVal := floatVal ret; bitVal := bitVal ret |}.
Definition set_floatVal (ret : t) (x : float) : t :=
  {| valueType := valueType ret; raw := raw ret; strVal := strVal ret;
     intVal := intVal ret; floatVal := x; bitVal := bitVal ret |}.
Definition set_bitVal (ret : t) (x : bool) : t :=
  {| valueType := valueType ret; raw := raw ret; strVal := strVal ret;
     intVal := intVal ret; floatVal := floatVal ret; bitVal := x |}.
End Value.

Definition ColumnKeyOption := Z.

Module Column.
Record t : Set :=
  { name : string;
    typeName : string;
    unsigned : bool;
    notNull : bool;
    autoIncrement : bool;
    defaultVal : option Value.t;
    length : option Value.t;
    scale : option Value.t;
    keyOption : ColumnKeyOption }.
End Column.

Module IndexColumn.
Record t : Set := { column : string; length : option Value.t }.
End IndexColumn.

Module Index.
Record t : Set :=
  { name : string;
    indexType : string;
    columns : list IndexColumn.t;
    primary : bool;
    unique : bool }.
End Index.

Module Table.
Record t : Set :=
  { name : string; columns : list Column.t; indexes : list Index.t }.
End Table.

(** The [DDL] interface and its four implementations. *)
Inductive DDL : Set :=
| CreateTable (statement : string) (table : Table.t)
| CreateIndex (statement : string) (tableName : string) (index : Index.t)
| AddIndex (statement : string) (tableName : string) (index : Index.t)
| AddPrimaryKey (statement : string) (tableName : string) (index : Index.t).

Definition GeneratorMode := Z.
Definition GeneratorModeMysql : GeneratorMode := 0.
Definition GeneratorModePostgres : GeneratorMode := 1.

(** A Go [error] is its message. *)
Definition error := string.

(** [x, err := e; if err != nil { return nil, err }] *)
Definition bind {A B : Type} (e : A + error) (k : A -> B + error) : B + error :=
  match e with
  | inl x => k x
  | inr err => inr err
  end.

Notation "x <- e ;; k" := (bind e (fun x => k))
  (at level 61, e at next level, right associativity).

(** ** [parser.go] *)

(** Convert back [type BoolVal bool]. *)
Definition castBool (val : sqlparser.BoolVal) : bool :=
  fst (strconv.ParseBool (fmt.Sprint_bool val)).

(** The three messages that [parser.go] builds with [fmt.Errorf]. *)
Definition MissingIndexSpec (repr : string) : error :=
  "stmt.IndexSpec was null on parseIndex: " ++ repr.

Definition UnsupportedAction (action ddl : string) : error :=
  "unsupported type of DDL action (only 'CREATE TABLE', 'CREATE INDEX' and 'ALTER TABLE ADD INDEX' are supported) '"
    ++ action ++ "': " ++ ddl.

Definition UnsupportedStatement (ddl : string) : error :=
  "unsupported type of SQL (only DDL is supported): " ++ ddl.

Section Translator.

(** [strconv.ParseFloat(s, 64)]: the float it returns and its error.  The
    properties of numeric literals take [strconv.ParseFloat convert] for
    it. *)
Variable ParseFloat : string -> float * option strconv.NumError.

(** [sqlparser.ParseWithMode]. *)
Variable ParseWithMode :
  string -> sqlparser.ParserMode -> sqlparser.Statement + error.

(** What the verb [%#v] prints for a [*sqlparser.DDL]. *)
Variable GoSyntax : sqlparser.DDL.t -> string.

Definition parseValue (val : option sqlparser.SQLVal.t) : option Value.t :=
  match val with
  | None => None
  | Some val =>
      let ty := sqlparser.SQLVal.Type_ val in
      let chosen :=
        if ty =? sqlparser.StrVal then Some ValueTypeStr
        else if ty =? sqlparser.IntVal then Some ValueTypeInt
        else if ty =? sqlparser.FloatVal then Some ValueTypeFloat
        else if ty =? sqlparser.HexNum then Some ValueTypeHexNum
        else if ty =? sqlparser.HexVal then Some ValueTypeHex
        else if ty =? sqlparser.ValArg then Some ValueTypeValArg
        else if ty =? sqlparser.BitVal then Some ValueTypeBit
        else None in
      match chosen with
      | None => None
      | Some valueType =>
          let raw := sqlparser.SQLVal.Val val in
          let ret :=
            {| Value.valueType := valueType;
               Value.raw := raw;
               Value.strVal := "";
               Value.intVal := 0;
               Value.floatVal := 0%float;
               Value.bitVal := false |} in
          Some
            match valueType with
            | ValueTypeStr => Value.set_strVal ret raw
            | ValueTypeInt =>
                let intVal := fst (strconv.Atoi raw) in
                Value.set_intVal ret intVal
            | ValueTypeFloat =>
                let floatVal := fst (ParseFloat raw) in
                Value.set_floatVal ret floatVal
            | ValueTypeBit =>
                if String.eqb raw "1"
                then Value.set_bitVal ret true
                else Value.set_bitVal ret false
            | _ => ret
            end
      end
  end.

(** The [Column] literal in the first loop of [parseTable]. *)
Definition parseColumn (parsedCol : sqlparser.ColumnDefinition.t) : Column.t :=
  let ty := sqlparser.ColumnDefinition.Type_ parsedCol in
  {| Column.name :=
       sqlparser.ColIdent.String (sqlparser.ColumnDefinition.Name parsedCol);
     Column.typeName := sqlparser.ColumnType.Type_ ty;
     Column.unsigned := castBool (sqlparser.ColumnType.Unsigned ty);
     Column.notNull := castBool (sqlparser.ColumnType.NotNull ty);
     Column.autoIncrement := castBool (sqlparser.ColumnType.Autoincrement ty);
     Column.defaultVal := parseValue (sqlparser.ColumnType.Default ty);
     Column.length := parseValue (sqlparser.ColumnType.Length ty);
     Column.scale := parseValue (sqlparser.ColumnType.Scale ty);
     Column.keyOption := sqlparser.ColumnType.KeyOpt ty |}.

(** The three [for ... range] loops of [parseTable] are left folds that
    append to the slice they build. *)
Definition parseTable (stmt : sqlparser.DDL.t) : Table.t :=
  let spec := sqlparser.DDL.TableSpec stmt in
  let columns :=
    fold_left
      (fun columns parsedCol => (columns ++ [parseColumn parsedCol])%list)
      (sqlparser.TableSpec.Columns spec) [] in
  let indexes :=
    fold_left
      (fun indexes indexDef =>
         let indexColumns :=
           fold_left
             (fun indexColumns column =>
                (indexColumns ++
                  [ {| IndexColumn.column :=
                         sqlparser.ColIdent.String
                           (sqlparser.IndexColumn.Column column);
                       IndexColumn.length :=
                         parseValue (sqlparser.IndexColumn.Length column) |} ])%list)
             (sqlparser.IndexDefinition.Columns indexDef) [] in
         let info := sqlparser.IndexDefinition.Info indexDef in
         (indexes ++
           [ {| Index.name :=
                  sqlparser.ColIdent.String (sqlparser.IndexInfo.Name info);
                Index.indexType := sqlparser.IndexInfo.Type_ info;
                Index.columns := indexColumns;
                Index.primary := sqlparser.IndexInfo.Primary info;
                Index.unique := sqlparser.IndexInfo.Unique info |} ])%list)
      (sqlparser.TableSpec.Indexes spec) [] in
  {| Table.name :=
       sqlparser.TableIdent.String
         (sqlparser.TableName.Name (sqlparser.DDL.NewName stmt));
     Table.columns := columns;
     Table.indexes := indexes |}.

Definition parseIndex (stmt : sqlparser.DDL.t) : Index.t + error :=
  match sqlparser.DDL.IndexSpec stmt with
  | None => inr (MissingIndexSpec (GoSyntax stmt))
  | Some indexSpec =>
      let indexColumns :=
        fold_left
          (fun indexColumns colIdent =>
             (indexColumns ++
               [ {| IndexColumn.column := sqlparser.ColIdent.String colIdent;
                    IndexColumn.length := None |} ])%list)
          (sqlparser.DDL.IndexCols stmt) [] in
      inl {| Index.name :=
               sqlparser.ColIdent.String (sqlparser.IndexSpec.Name indexSpec);
             Index.indexType := "";
             Index.columns := indexColumns;
             Index.primary := false;
             Index.unique := sqlparser.IndexSpec.Unique indexSpec |}
  end.

Definition parserModeOf (mode : GeneratorMode) : sqlparser.ParserMode :=
  if mode =? GeneratorModePostgres
  then sqlparser.ParserModePostgres
  else sqlparser.ParserModeMysql.

(** Parse DDL like [CREATE TABLE] or [ALTER TABLE].  This doesn't support
    destructive DDL like [DROP TABLE]. *)
Definition parseDDL (mode : GeneratorMode) (ddl : string) : DDL + error :=
  let parserMode := parserModeOf mode in
  stmt <- ParseWithMode ddl parserMode ;;
  match stmt with
  | sqlparser.DDLStmt stmt =>
      let tableName :=
        sqlparser.TableIdent.String
          (sqlparser.TableName.Name (sqlparser.DDL.Table stmt)) in
      if String.eqb (sqlparser.DDL.Action stmt) "create" then
        inl (CreateTable ddl (parseTable stmt))
      else if String.eqb (sqlparser.DDL.Action stmt) "create index" then
        index <- parseIndex stmt ;;
        inl (CreateIndex ddl tableName index)
      else if String.eqb (sqlparser.DDL.Action stmt) "add index" then
        index <- parseIndex stmt ;;
        inl (AddIndex ddl tableName index)
      else if String.eqb (sqlparser.DDL.Action stmt) "add primary key" then
        index <- parseIndex stmt ;;
        inl (AddPrimaryKey ddl tableName index)
      else
        inr (UnsupportedAction (sqlparser.DDL.Action stmt) ddl)
  | sqlparser.OtherStmt _ => inr (UnsupportedStatement ddl)
  end.

(** The loop of [parseDDLs] over the pieces that are left, [result] being
    the slice built so far. *)
Fixpoint parseDDLsLoop (mode : GeneratorMode) (ddls : list string)
    (result : list DDL) : list DDL * option error :=
  match ddls with
  | [] => (result, None)
  | ddl :: ddls' =>
      let ddl := strings.TrimSpace ddl in
      if len ddl =? 0 then parseDDLsLoop mode ddls' result
      else
        match parseDDL mode ddl with
        | inr err => (result, Some err)
        | inl parsed => parseDDLsLoop mode ddls' (result ++ [parsed])%list
        end
  end.

(** Parse [str], which is expected to be [;]-concatenated DDLs and not to
    include destructive DDL. *)
Definition parseDDLs (mode : GeneratorMode) (str : string)
    : list DDL * option error :=
  let ddls := strings.Split str ";"%char in
  parseDDLsLoop mode ddls [].

End Translator.

(** ** Reading a literal of Integer kind

    What it means for raw bytes to be a base-10 signed integer, and the
    integer they denote: an optional sign followed by one or more decimal
    digits. *)

Definition isDigit (c : ascii) : bool := (48 <=? byteZ c) && (byteZ c <=? 57).

Fixpoint allDigits (s : string) : bool :=
  match s with
  | EmptyString => true
  | String c s' => isDigit c && allDigits s'
  end.

Definition isDigits (s : string) : bool :=
  match s with
  | EmptyString => false
  | _ => allDigits s
  end.

Definition isBase10 (s : string) : bool :=
  match s with
  | EmptyString => false
  | String c rest =>
      if byte_is c 43 || byte_is c 45 then isDigits rest else isDigits s
  end.

Fixpoint digitsValue (s : string) (acc : Z) : Z :=
  match s with
  | EmptyString => acc
  | String c s' => digitsValue s' (acc * 10 + (byteZ c - 48))
  end.

Definition base10Value (s : string) : Z :=
  match s with
  | EmptyString => 0
  | String c rest =>
      if byte_is c 45 then - digitsValue rest 0
      else if byte_is c 43 then digitsValue rest 0
      else digitsValue s 0
  end.

(** What [strconv] does with an integer that may not fit [int]: it returns
    the nearer bound and a range error. *)
Definition clampInt64 (x : Z) : Z * option strconv.NumError :=
  if strconv.maxInt64 <? x then (strconv.maxInt64, Some strconv.ErrRange)
  else if x <? strconv.minInt64 then (strconv.minInt64, Some strconv.ErrRange)
  else (x, None).

(** The decimal digits a text starts with, up to its first byte that is no
    digit. *)
Fixpoint digitRun (s : string) : string :=
  match s with
  | EmptyString => EmptyString
  | String c s' => if isDigit c then String c (digitRun s') else EmptyString
  end.

(** The digits in front of the first malformed byte, after an optional sign,
    already denote more than 2^64 - 1. *)
Definition overflowsUint64 (s : string) : bool :=
  strconv.maxUint64 <? digitsValue (digitRun (strconv.skipSign s)) 0.

(** ** The kinds of literal the grammar promises *)

Definition knownKinds : list sqlparser.ValType :=
  [ sqlparser.StrVal; sqlparser.IntVal; sqlparser.FloatVal; sqlparser.HexNum;
    sqlparser.HexVal; sqlparser.ValArg; sqlparser.BitVal ].

Definition knownKind (ty : sqlparser.ValType) : bool :=
  existsb (Z.eqb ty) knownKinds.

(** A candidate statement that [parseDDL] translates to [d]. *)
Definition parsesTo
    (ParseFloat : string -> float * option strconv.NumError)
    (ParseWithMode :
       string -> sqlparser.ParserMode -> sqlparser.Statement + error)
    (GoSyntax : sqlparser.DDL.t -> string)
    (mode : GeneratorMode) (ddl : string) (d : DDL) : Prop :=
  parseDDL ParseFloat ParseWithMode GoSyntax mode ddl = inl d.

(** The table an index statement is about: [stmt.Table.Name.String()]. *)
Definition tableNameOf (stmt : sqlparser.DDL.t) : string :=
  sqlparser.TableIdent.String
    (sqlparser.TableName.Name (sqlparser.DDL.Table stmt)).

(** A run of white space runes, each given by its encoding: what
    [strings.TrimSpace] removes at either end. *)
Inductive spaceRun (encodings : list strings.bytes) : strings.bytes -> Prop :=
| spaceRun_nil : spaceRun encodings []
| spaceRun_cons enc run :
    In enc encodings -> spaceRun encodings run ->
    spaceRun encodings (enc ++ run)%list.

(** ** The candidate statements of a batch: the pieces between semicolons,
    trimmed, without the ones that trimming leaves empty *)

Definition candidates (str : string) : list string :=
  filter (fun ddl => negb (len ddl =? 0))
    (map strings.TrimSpace (strings.Split str ";"%char)).

(** ** Reading the results *)

(** The statement text a [DDL] value carries: the field [statement] of each
    of the four implementations. *)
Definition DDL_statement (d : DDL) : string :=
  match d with
  | CreateTable statement _ => statement
  | CreateIndex statement _ _ => statement
  | AddIndex statement _ _ => statement
  | AddPrimaryKey statement _ _ => statement
  end.

(** The index of the three index statements. *)
Definition DDL_index (d : DDL) : option Index.t :=
  match d with
  | CreateTable _ _ => None
  | CreateIndex _ _ index => Some index
  | AddIndex _ _ index => Some index
  | AddPrimaryKey _ _ index => Some index
  end.

(** A text without the statement separator. *)
Definition noSeparator (s : string) : bool :=
  negb (existsb (Ascii.eqb ";"%char) (list_ascii_of_string s)).

(** The six white space bytes of ASCII: tab, line feed, vertical tab, form
    feed, carriage return and space. *)
Definition asciiSpace (c : ascii) : bool :=
  ((9 <=? byteZ c) && (byteZ c <=? 13)) || (byteZ c =? 32).

(** A batch made of separators and ASCII white space only. *)
Definition blankBatch (str : string) : bool :=
  forallb (fun c => Ascii.eqb c ";"%char || asciiSpace c)
    (list_ascii_of_string str).

(** The actions [parseDDL] knows. *)
Definition indexActions : list string :=
  ["create index"; "add index"; "add primary key"].

Definition supportedActions : list string := "create" :: indexActions.

(** ** Small collaborators to run the translator on

    A float decoder that knows three spellings, a conversion for the float
    decoder of [strconv], two printers, and a grammar of a few statements.
    The grammar reads back-quoted identifiers in MySQL mode only. *)

Module Toy.

Definition ParseFloat (s : string) : float * option strconv.NumError :=
  if String.eqb s "1.5" then (1.5%float, None)
  else if String.eqb s "0" then (0%float, None)
  else if String.eqb s "1e999" then (infinity, Some strconv.ErrRange)
  else (0%float, Some strconv.ErrSyntax).

Definition GoSyntax (stmt : sqlparser.DDL.t) : string :=
  "&sqlparser.DDL{Action:" ++ sqlparser.DDL.Action stmt ++ "}".

Definition ident (s : string) : sqlparser.ColIdent.t :=
  {| sqlparser.ColIdent.val := s |}.

Definition table (s : string) : sqlparser.TableName.t :=
  {| sqlparser.TableName.Name := {| sqlparser.TableIdent.v := s |};
     sqlparser.TableName.Qualifier := {| sqlparser.TableIdent.v := "" |} |}.

Definition lit (ty : sqlparser.ValType) (raw : string) : sqlparser.SQLVal.t :=
  {| sqlparser.SQLVal.Type_ := ty; sqlparser.SQLVal.Val := raw |}.

Definition col (name ty : string) (length : option sqlparser.SQLVal.t)
    : sqlparser.ColumnDefinition.t :=
  {| sqlparser.ColumnDefinition.Name := ident name;
     sqlparser.ColumnDefinition.Type_ :=
       {| sqlparser.ColumnType.Type_ := ty;
          sqlparser.ColumnType.NotNull := false;
          sqlparser.ColumnType.Autoincrement := false;
          sqlparser.ColumnType.Default := None;
          sqlparser.ColumnType.Length := length;
          sqlparser.ColumnType.Unsigned := false;
          sqlparser.ColumnType.Scale := None;
          sqlparser.ColumnType.KeyOpt := 0 |} |}.

Definition noSpec : sqlparser.TableSpec.t :=
  {| sqlparser.TableSpec.Columns := []; sqlparser.TableSpec.Indexes := [] |}.

Definition createTable (name : string)
    (cols : list sqlparser.ColumnDefinition.t)
    (idxs : list sqlparser.IndexDefinition.t) : sqlparser.DDL.t :=
  {| sqlparser.DDL.Action := "create";
     sqlparser.DDL.Table := table "";
     sqlparser.DDL.NewName := table name;
     sqlparser.DDL.TableSpec :=
       {| sqlparser.TableSpec.Columns := cols;
          sqlparser.TableSpec.Indexes := idxs |};
     sqlparser.DDL.IndexSpec := None;
     sqlparser.DDL.IndexCols := [] |}.

Definition indexNode (action tbl : string)
    (spec : option sqlparser.IndexSpec.t) (cols : list string)
    : sqlparser.DDL.t :=
  {| sqlparser.DDL.Action := action;
     sqlparser.DDL.Table := table tbl;
     sqlparser.DDL.NewName := table tbl;
     sqlparser.DDL.TableSpec := noSpec;
     sqlparser.DDL.IndexSpec := spec;
     sqlparser.DDL.IndexCols := map ident cols |}.

Definition spec (name : string) (unique : bool) : option sqlparser.IndexSpec.t :=
  Some {| sqlparser.IndexSpec.Name := ident name;
          sqlparser.IndexSpec.Unique := unique |}.

Definition inlineIndex (name ty : string) (primary unique : bool)
    (cols : list (string * option sqlparser.SQLVal.t))
    : sqlparser.IndexDefinition.t :=
  {| sqlparser.IndexDefinition.Info :=
       {| sqlparser.IndexInfo.Type_ := ty;
          sqlparser.IndexInfo.Name := ident name;
          sqlparser.IndexInfo.Primary := primary;
          sqlparser.IndexInfo.Unique := unique |};
     sqlparser.IndexDefinition.Columns :=
       map (fun '(c, l) =>
              {| sqlparser.IndexColumn.Column := ident c;
                 sqlparser.IndexColumn.Length := l |}) cols |}.

Definition ParseWithMode (sql : string) (mode : sqlparser.ParserMode)
    : sqlparser.Statement + error :=
  if String.eqb sql "CREATE TABLE t (a INT, b VARCHAR(10))" then
    inl (sqlparser.DDLStmt
           (createTable "t"
              [col "a" "int" None;
               col "b" "varchar" (Some (lit sqlparser.IntVal "10"))] []))
  else if String.eqb sql "CREATE TABLE a (id INT)" then
    inl (sqlparser.DDLStmt (createTable "a" [col "id" "int" None] []))
  else if String.eqb sql "CREATE TABLE b (id INT)" then
    inl (sqlparser.DDLStmt (createTable "b" [col "id" "int" None] []))
  else if String.eqb sql "CREATE TABLE `c` (id INT)" then
    match mode with
    | sqlparser.ParserModeMysql =>
        inl (sqlparser.DDLStmt (createTable "c" [col "id" "int" None] []))
    | sqlparser.ParserModePostgres => inr "syntax error at position 14"
    end
  else if String.eqb sql "CREATE INDEX idx ON t (col)" then
    inl (sqlparser.DDLStmt
           (indexNode "create index" "t" (spec "idx" false) ["col"]))
  else if String.eqb sql "ALTER TABLE t ADD UNIQUE INDEX idx (a, b)" then
    inl (sqlparser.DDLStmt
           (indexNode "add index" "t" (spec "idx" true) ["a"; "b"]))
  else if String.eqb sql "ALTER TABLE t ADD PRIMARY KEY (a)" then
    inl (sqlparser.DDLStmt
           (indexNode "add primary key" "t" (spec "PRIMARY" false) ["a"]))
  else if String.eqb sql "DROP TABLE a" then
    inl (sqlparser.DDLStmt (indexNode "drop" "a" None []))
  else if String.eqb sql "SELECT 1" then
    inl (sqlparser.OtherStmt "*sqlparser.Select")
  else inr "syntax error at position 1".

(** A grammar of one statement. *)
Definition ParseOne (sql : string) (mode : sqlparser.ParserMode)
    : sqlparser.Statement + error :=
  if String.eqb sql "CREATE TABLE a (id INT)" then
    inl (sqlparser.DDLStmt (createTable "a" [col "id" "int" None] []))
  else inr "syntax error at position 1".

(** The grammar above in MySQL mode, and no grammar at all in Postgres
    mode. *)
Definition ParseMysqlOnly (sql : string) (mode : sqlparser.ParserMode)
    : sqlparser.Statement + error :=
  match mode with
  | sqlparser.ParserModeMysql => ParseWithMode sql sqlparser.ParserModeMysql
  | sqlparser.ParserModePostgres => inr "no grammar for this mode"
  end.

(** A conversion of accepted numbers that knows three of them. *)
Definition convert (s : string) : float * option strconv.NumError :=
  if String.eqb s "1.5" then (1.5%float, None)
  else if String.eqb s "1e999" then (infinity, Some strconv.ErrRange)
  else (0%float, None).

(** A printer that shows an address, another one in every run. *)
Definition GoSyntaxAt (address : string) (stmt : sqlparser.DDL.t) : string :=
  "&sqlparser.DDL{Action:" ++ sqlparser.DDL.Action stmt ++
  ", TableSpec:(*sqlparser.TableSpec)(" ++ address ++ ")}".

End Toy.

(** * Properties *)

(** ** The standard library models *)

Lemma castBool_id (b : bool) : castBool b = b.
Proof. destruct b; reflexivity. Qed.

(** [strings.Split]: joining the pieces with the separator gives the string
    back, and no piece contains the separator. *)

Lemma Split_not_nil (s : string) (sep : ascii) : strings.Split s sep <> [].
Proof.
  destruct s as [|c s]; cbn [strings.Split]; [discriminate|].
  destruct (Ascii.eqb c sep); [discriminate|].
  destruct (strings.Split s sep); discriminate.
Qed.

Lemma Join_Split (s : string) (sep : ascii) :
  strings.Join (strings.Split s sep) sep = s.
Proof.
  induction s as [|c s IH]; [reflexivity|].
  cbn [strings.Split].
  pose proof (Split_not_nil s sep) as Hne.
  destruct (Ascii.eqb_spec c sep) as [->|Hc].
  - destruct (strings.Split s sep) as [|piece pieces] eqn:E;
      [contradiction|].
    cbn [strings.Join append] in *. rewrite IH. reflexivity.
  - destruct (strings.Split s sep) as [|piece pieces] eqn:E;
      [contradiction|].
    cbn [strings.Join] in *.
    destruct pieces as [|piece' pieces]; cbn [append]; rewrite IH;
      reflexivity.
Qed.

Lemma Split_pieces_without_sep (s : string) (sep : ascii) :
  Forall (fun piece =>
            existsb (Ascii.eqb sep) (list_ascii_of_string piece) = false)
    (strings.Split s sep).
Proof.
  induction s as [|c s IH]; cbn [strings.Split].
  - constructor; [reflexivity | constructor].
  - destruct (Ascii.eqb_spec c sep) as [->|Hc].
    + constructor; [reflexivity | exact IH].
    + destruct (strings.Split s sep) as [|piece pieces].
      * constructor; [|constructor].
        cbn. destruct (Ascii.eqb_spec sep c); [congruence | reflexivity].
      * inversion IH as [|? ? Hpiece Hpieces]; subst.
        constructor; [|exact Hpieces].
        cbn [list_ascii_of_string existsb].
        destruct (Ascii.eqb_spec sep c); [congruence | exact Hpiece].
Qed.

(** [unicode.IsSpace] and the list of white space runes agree. *)
Lemma IsSpace_spaceRunes (r : Z) :
  unicode.IsSpace r = true <-> In r unicode.spaceRunes.
Proof.
  split.
  - unfold unicode.IsSpace, unicode.White_Space. cbn [existsb].
    intros H.
    assert (forall lo hi, (lo <=? r) && (r <=? hi) = true ->
                          In r (unicode.runesOf (lo, hi))) as Hrange.
    { intros lo hi Hb. apply andb_prop in Hb as [Hlo Hhi].
      unfold unicode.runesOf. apply in_map_iff.
      exists (Z.to_nat (r - lo)). split; [lia|].
      apply in_seq. lia. }
    unfold unicode.spaceRunes, unicode.White_Space. cbn [flat_map].
    repeat (apply orb_prop in H as [H|H];
            [apply in_or_app; left; apply Hrange; exact H
            |apply in_or_app; right]).
    discriminate H.
  - intros H.
    assert (forallb unicode.IsSpace unicode.spaceRunes = true) as Hall
      by (vm_compute; reflexivity).
    rewrite forallb_forall in Hall. apply Hall. exact H.
Qed.

(** [strings.TrimSpace]: what is left neither begins nor ends with a white
    space rune. *)

Lemma stripPrefix_app (p s rest : strings.bytes) :
  strings.stripPrefix p s = Some rest -> s = (p ++ rest)%list.
Proof.
  revert s. induction p as [|a p IH]; intros s H; cbn [strings.stripPrefix] in H.
  - inversion H. reflexivity.
  - destruct s as [|b s]; [discriminate H|].
    destruct (Ascii.eqb_spec a b) as [->|]; [|discriminate H].
    cbn [app]. rewrite (IH _ H). reflexivity.
Qed.

Lemma app_stripPrefix (p rest : strings.bytes) :
  strings.stripPrefix p (p ++ rest)%list = Some rest.
Proof.
  induction p as [|a p IH]; cbn [strings.stripPrefix app]; [reflexivity|].
  rewrite Ascii.eqb_refl. exact IH.
Qed.

Lemma stripSpace_some (encodings : list strings.bytes) (s rest : strings.bytes) :
  strings.stripSpace encodings s = Some rest ->
  exists enc, In enc encodings /\ s = (enc ++ rest)%list.
Proof.
  induction encodings as [|enc encodings IH];
    cbn [strings.stripSpace fold_right]; [discriminate|].
  destruct (strings.stripPrefix enc s) as [rest'|] eqn:E.
  - intros H. inversion H; subst. exists enc.
    split; [left; reflexivity | apply stripPrefix_app; exact E].
  - intros H. destruct (IH H) as (enc' & Hin & Hs).
    exists enc'. split; [right; exact Hin | exact Hs].
Qed.

Lemma stripSpace_none (encodings : list strings.bytes) (s : strings.bytes) :
  strings.stripSpace encodings s = None ->
  forall enc rest, In enc encodings -> s <> (enc ++ rest)%list.
Proof.
  induction encodings as [|enc0 encodings IH];
    cbn [strings.stripSpace fold_right]; intros H enc rest Hin Hs;
    [destruct Hin|].
  destruct (strings.stripPrefix enc0 s) eqn:E; [discriminate H|].
  destruct Hin as [<-|Hin].
  - subst s. rewrite app_stripPrefix in E. discriminate E.
  - exact (IH H enc rest Hin Hs).
Qed.

Lemma trimLoop_done (encodings : list strings.bytes) :
  Forall (fun enc => enc <> []) encodings ->
  forall fuel s,
    (List.length s <= fuel)%nat ->
    strings.stripSpace encodings (strings.trimLoop encodings fuel s) = None.
Proof.
  intros Hne. induction fuel as [|fuel IH]; intros s Hlen;
    cbn [strings.trimLoop].
  - destruct s; [|cbn in Hlen; lia].
    destruct (strings.stripSpace encodings []) as [rest|] eqn:E;
      [|reflexivity].
    destruct (stripSpace_some _ _ _ E) as (enc & Hin & Hs).
    rewrite Forall_forall in Hne. specialize (Hne enc Hin).
    destruct enc; [contradiction | discriminate Hs].
  - destruct (strings.stripSpace encodings s) as [rest|] eqn:E;
      [|exact E].
    apply IH.
    destruct (stripSpace_some _ _ _ E) as (enc & Hin & Hs).
    rewrite Forall_forall in Hne. specialize (Hne enc Hin).
    subst s. rewrite length_app in Hlen.
    destruct enc; [contradiction | cbn in Hlen; lia].
Qed.

Lemma trimLoop_removes (encodings : list strings.bytes) :
  forall fuel s,
    exists run,
      spaceRun encodings run /\
      s = (run ++ strings.trimLoop encodings fuel s)%list.
Proof.
  induction fuel as [|fuel IH]; intros s; cbn [strings.trimLoop].
  - exists []. split; [constructor | reflexivity].
  - destruct (strings.stripSpace encodings s) as [rest|] eqn:E.
    + destruct (stripSpace_some _ _ _ E) as (enc & Hin & Hs).
      destruct (IH rest) as (run & Hrun & Hrest).
      exists (enc ++ run)%list. split; [constructor; assumption|].
      rewrite <- app_assoc, <- Hrest. exact Hs.
    + exists []. split; [constructor | reflexivity].
Qed.

Lemma spaceEncodings_not_nil :
  Forall (fun enc : strings.bytes => enc <> []) strings.spaceEncodings.
Proof.
  assert (forallb (fun enc : strings.bytes =>
                     match enc with [] => false | _ => true end)
            strings.spaceEncodings = true) as H by (vm_compute; reflexivity).
  rewrite forallb_forall in H. apply Forall_forall.
  intros enc Hin. specialize (H enc Hin). destruct enc; [discriminate|].
  discriminate.
Qed.

Lemma TrimSpace_spec (s : string) :
  let t := list_ascii_of_string (strings.TrimSpace s) in
  (exists before after,
     spaceRun strings.spaceEncodings before /\
     spaceRun (map (@rev ascii) strings.spaceEncodings) (rev after) /\
     list_ascii_of_string s = (before ++ t ++ after)%list) /\
  (forall enc rest, In enc strings.spaceEncodings -> t <> (enc ++ rest)%list) /\
  (forall enc rest, In enc strings.spaceEncodings -> t <> (rest ++ enc)%list).
Proof.
  cbv zeta. unfold strings.TrimSpace.
  rewrite list_ascii_of_string_of_list_ascii.
  set (b := list_ascii_of_string s).
  unfold strings.trimRightSpace, strings.trimLeftSpace.
  set (l := strings.trimLoop strings.spaceEncodings (List.length b) b).
  set (encR := map (@rev ascii) strings.spaceEncodings).
  set (r := strings.trimLoop encR (List.length l) (rev l)).
  destruct (trimLoop_removes strings.spaceEncodings (List.length b) b)
    as (before & Hbefore & Hb). fold l in Hb.
  destruct (trimLoop_removes encR (List.length l) (rev l))
    as (afterR & Hafter & Hl). fold r in Hl.
  assert (HencR : Forall (fun enc : strings.bytes => enc <> []) encR).
  { unfold encR. apply Forall_forall. intros enc Hin.
    apply in_map_iff in Hin as (e & <- & He).
    pose proof spaceEncodings_not_nil as Hne.
    rewrite Forall_forall in Hne. specialize (Hne e He).
    destruct e; [contradiction|]. cbn. intros H.
    apply app_eq_nil in H as [_ H]. discriminate H. }
  assert (Hl' : l = (rev r ++ rev afterR)%list).
  { rewrite <- (rev_involutive l), Hl, rev_app_distr. reflexivity. }
  split; [|split].
  - exists before, (rev afterR). rewrite rev_involutive.
    repeat split; [exact Hbefore | exact Hafter |].
    rewrite <- Hl'. exact Hb.
  - intros enc rest Hin Ht.
    pose proof (trimLoop_done strings.spaceEncodings spaceEncodings_not_nil
                  (List.length b) b (le_n _)) as Hdone.
    fold l in Hdone.
    apply (stripSpace_none _ _ Hdone enc (rest ++ rev afterR)%list Hin).
    rewrite Hl', Ht, <- app_assoc. reflexivity.
  - intros enc rest Hin Ht.
    pose proof (trimLoop_done encR HencR (List.length l) (rev l)) as Hdone.
    rewrite length_rev in Hdone. specialize (Hdone (le_n _)). fold r in Hdone.
    apply (stripSpace_none _ _ Hdone (rev enc) (rev rest)).
    + unfold encR. apply in_map. exact Hin.
    + rewrite <- rev_app_distr, <- Ht, rev_involutive. reflexivity.
Qed.

(** ** The value extractor *)

Section ValueExtractor.

Variable ParseFloat : string -> float * option strconv.NumError.

Local Abbreviation parseValue := (parseValue ParseFloat).

(** The kind tag alone decides whether a [Value] comes back. *)
Lemma parseValue_known (val : sqlparser.SQLVal.t) :
  knownKind (sqlparser.SQLVal.Type_ val) = true ->
  exists v, parseValue (Some val) = Some v.
Proof.
  unfold knownKind, knownKinds, parseValue; cbn [existsb].
  intros H.
  repeat match goal with
         | |- context [if ?b then _ else _] =>
             destruct b eqn:?; [eexists; reflexivity|]
         end.
  cbn in H. discriminate H.
Qed.

Lemma parseValue_raw (val : sqlparser.SQLVal.t) (v : Value.t) :
  parseValue (Some val) = Some v ->
  Value.raw v = sqlparser.SQLVal.Val val.
Proof.
  unfold parseValue.
  repeat match goal with
         | |- context [if ?b then _ else _] => destruct b
         end;
    intros H; inversion H; reflexivity.
Qed.

(** C7.  [parseValue] answers [nil] to a [nil] literal, and also to a
    literal whose kind tag is none of the seven known ones: no error is
    raised for it. *)
Theorem parseValue_nil_or_unknown :
  parseValue None = None /\
  forall val : sqlparser.SQLVal.t,
    knownKind (sqlparser.SQLVal.Type_ val) = false ->
    parseValue (Some val) = None.
Proof.
  split; [reflexivity|].
  intros val. unfold knownKind, knownKinds, parseValue; cbn [existsb].
  intros H.
  repeat match goal with
         | |- context [if ?b then _ else _] =>
             destruct b eqn:?; [cbn in H; discriminate H|]
         end.
  reflexivity.
Qed.

(** C8.  Whatever [Value] the extractor produces carries the raw bytes of
    the literal it was made from, and it produces one for each of the seven
    known kinds. *)
Theorem parseValue_keeps_raw (val : sqlparser.SQLVal.t) :
  (forall v, parseValue (Some val) = Some v ->
             Value.raw v = sqlparser.SQLVal.Val val) /\
  (knownKind (sqlparser.SQLVal.Type_ val) = true ->
   exists v, parseValue (Some val) = Some v /\
             Value.raw v = sqlparser.SQLVal.Val val).
Proof.
  split.
  - intros v. apply parseValue_raw.
  - intros H. destruct (parseValue_known val H) as [v Hv].
    exists v. split; [exact Hv | apply parseValue_raw; exact Hv].
Qed.

(** C6.  A literal of Bit kind decodes to [true] when its raw text is the
    one character [1] and to [false] for every other raw text. *)
Theorem parseValue_bit (val : sqlparser.SQLVal.t) :
  sqlparser.SQLVal.Type_ val = sqlparser.BitVal ->
  parseValue (Some val) =
    Some {| Value.valueType := ValueTypeBit;
            Value.raw := sqlparser.SQLVal.Val val;
            Value.strVal := "";
            Value.intVal := 0;
            Value.floatVal := 0%float;
            Value.bitVal := String.eqb (sqlparser.SQLVal.Val val) "1" |} /\
  (sqlparser.SQLVal.Val val = "1" ->
   option_map Value.bitVal (parseValue (Some val)) = Some true) /\
  (sqlparser.SQLVal.Val val <> "1" ->
   option_map Value.bitVal (parseValue (Some val)) = Some false).
Proof.
  intros Hty.
  assert (E : parseValue (Some val) =
    Some {| Value.valueType := ValueTypeBit;
            Value.raw := sqlparser.SQLVal.Val val;
            Value.strVal := "";
            Value.intVal := 0;
            Value.floatVal := 0%float;
            Value.bitVal := String.eqb (sqlparser.SQLVal.Val val) "1" |}).
  { unfold parseValue. rewrite Hty. cbn.
    destruct (String.eqb (sqlparser.SQLVal.Val val) "1"); reflexivity. }
  rewrite E. cbn. repeat split.
  - intros H. rewrite H. reflexivity.
  - intros H. apply String.eqb_neq in H. rewrite H. reflexivity.
Qed.

End ValueExtractor.

(** ** [strconv.Atoi] against the decimal reading of its argument *)

Section AtoiFacts.

Import strconv.

Local Ltac consts :=
  unfold maxUint64, maxInt64, minInt64, intSize in *;
  change (2 ^ 64) with 18446744073709551616 in *;
  change (2 ^ 63) with 9223372036854775808 in *;
  change (2 ^ (64 - 1)) with 9223372036854775808 in *.

Lemma wrapI64_small (z : Z) :
  - 2 ^ 63 <= z < 2 ^ 63 -> wrapI64 z = z.
Proof.
  intros H. unfold wrapI64. consts.
  rewrite Z.mod_small by lia. lia.
Qed.

Lemma wrapU64_small (z : Z) : 0 <= z < 2 ^ 64 -> wrapU64 z = z.
Proof. intros H. unfold wrapU64. apply Z.mod_small. exact H. Qed.

Lemma byteZ_range (c : ascii) : 0 <= byteZ c < 256.
Proof.
  unfold byteZ. pose proof (N_ascii_bounded c) as H. lia.
Qed.

Lemma isDigit_range (c : ascii) :
  isDigit c = true -> 0 <= byteZ c - 48 <= 9.
Proof. unfold isDigit. intros H. lia. Qed.

Lemma pow10_pos (k : nat) : 0 < 10 ^ Z.of_nat k.
Proof. apply Z.pow_pos_nonneg; lia. Qed.

Lemma pow10_succ (k : nat) : 10 ^ Z.of_nat (S k) = 10 * 10 ^ Z.of_nat k.
Proof. rewrite Nat2Z.inj_succ, Z.pow_succ_r by lia. reflexivity. Qed.

(** The digits read after an accumulator [n] denote a number between
    [n * 10^k] and [(n + 1) * 10^k - 1], [k] being their count. *)
Lemma digitsValue_bounds (s : string) :
  allDigits s = true ->
  forall n, 0 <= n ->
    n * 10 ^ Z.of_nat (String.length s) <= digitsValue s n
    < (n + 1) * 10 ^ Z.of_nat (String.length s).
Proof.
  induction s as [|c s IH]; intros Hd n Hn.
  - cbn. lia.
  - cbn [allDigits] in Hd. apply andb_prop in Hd as [Hc Hs].
    apply isDigit_range in Hc.
    cbn [digitsValue String.length]. rewrite pow10_succ.
    specialize (IH Hs (n * 10 + (byteZ c - 48)) ltac:(lia)).
    pose proof (pow10_pos (String.length s)). nia.
Qed.

Lemma atoiLoop_digits (s : string) :
  allDigits s = true ->
  forall n, 0 <= n ->
    (n + 1) * 10 ^ Z.of_nat (String.length s) <= 2 ^ 63 ->
    atoiLoop s n = Some (digitsValue s n).
Proof.
  induction s as [|c s IH]; intros Hd n Hn Hb.
  - reflexivity.
  - cbn [allDigits] in Hd. apply andb_prop in Hd as [Hc Hs].
    apply isDigit_range in Hc.
    cbn [atoiLoop digitsValue]. cbn [String.length] in Hb.
    rewrite pow10_succ in Hb.
    pose proof (pow10_pos (String.length s)) as Hp.
    unfold wrapByte. rewrite Z.mod_small by lia.
    destruct (9 <? byteZ c - 48) eqn:E; [lia|].
    rewrite wrapI64_small by (consts; nia).
    apply IH; [exact Hs | lia | nia].
Qed.

Lemma atoiLoop_not_digits (s : string) :
  allDigits s = false -> forall n, atoiLoop s n = None.
Proof.
  induction s as [|c s IH]; intros Hd n; [discriminate Hd|].
  cbn [allDigits] in Hd. cbn [atoiLoop].
  pose proof (byteZ_range c) as Hr.
  destruct (isDigit c) eqn:Hc.
  - apply isDigit_range in Hc.
    unfold wrapByte. rewrite Z.mod_small by lia.
    destruct (9 <? byteZ c - 48) eqn:E; [reflexivity|].
    apply IH. exact Hd.
  - unfold isDigit in Hc. unfold wrapByte.
    assert (9 < (byteZ c - 48) mod 256) as H9.
    { destruct (Z.ltb_spec (byteZ c) 48).
      - replace ((byteZ c - 48) mod 256) with (byteZ c + 208).
        + lia.
        + apply Z.mod_unique with (q := -1); lia.
      - rewrite Z.mod_small by lia. lia. }
    apply Z.ltb_lt in H9. rewrite H9. reflexivity.
Qed.

Lemma parseUintLoop_digits (s : string) :
  allDigits s = true ->
  forall n, 0 <= n <= maxUint64 ->
    parseUintLoop s n =
      if digitsValue s n <=? maxUint64
      then (digitsValue s n, None)
      else (maxUint64, Some ErrRange).
Proof.
  assert (Hcut : maxUint64 / 10 + 1 = 1844674407370955162) by reflexivity.
  assert (Hmax : maxUint64 = 18446744073709551615) by reflexivity.
  assert (H64 : 2 ^ 64 = 18446744073709551616) by reflexivity.
  induction s as [|c s IH]; intros Hd n Hn.
  - cbn [parseUintLoop digitsValue].
    destruct (Z.leb_spec n maxUint64); [reflexivity | lia].
  - cbn [allDigits] in Hd. apply andb_prop in Hd as [Hc Hs].
    pose proof (digitsValue_bounds s Hs) as Hb.
    pose proof (pow10_pos (String.length s)) as Hp.
    cbn [parseUintLoop digitsValue].
    fold (isDigit c). rewrite Hc. apply isDigit_range in Hc.
    specialize (Hb (n * 10 + (byteZ c - 48)) ltac:(lia)).
    rewrite Hcut.
    destruct (Z.leb_spec 1844674407370955162 n) as [E1|E1].
    + destruct (Z.leb_spec (digitsValue s (n * 10 + (byteZ c - 48))) maxUint64);
        [nia | reflexivity].
    + rewrite (wrapU64_small (n * 10)) by lia.
      destruct (Z.ltb_spec (n * 10 + (byteZ c - 48)) 18446744073709551616)
        as [Hlt|Hge].
      * rewrite wrapU64_small by lia.
        destruct (Z.ltb_spec (n * 10 + (byteZ c - 48)) (n * 10)); [lia|].
        destruct (Z.ltb_spec maxUint64 (n * 10 + (byteZ c - 48))); [lia|].
        cbn [orb]. apply IH; [exact Hs | lia].
      * assert (wrapU64 (n * 10 + (byteZ c - 48))
                = n * 10 + (byteZ c - 48) - 18446744073709551616) as Hw.
        { unfold wrapU64. rewrite H64. symmetry.
          apply Z.mod_unique with (q := 1); lia. }
        rewrite Hw.
        destruct (Z.ltb_spec (n * 10 + (byteZ c - 48) - 18446744073709551616)
                    (n * 10)); [|lia].
        cbn [orb].
        destruct (Z.leb_spec (digitsValue s (n * 10 + (byteZ c - 48))) maxUint64);
          [nia | reflexivity].
Qed.

Lemma parseUintLoop_error (s : string) :
  forall n v,
    (parseUintLoop s n = (v, Some ErrSyntax) -> v = 0) /\
    (parseUintLoop s n = (v, Some ErrRange) -> v = maxUint64).
Proof.
  induction s as [|c s IH]; intros n v; cbn [parseUintLoop].
  - split; intros H; discriminate H.
  - repeat match goal with
           | |- context [if ?b then _ else _] => destruct b
           end;
      try apply IH; split; intros H; inversion H; reflexivity.
Qed.

Lemma parseUintLoop_not_digits (s : string) :
  allDigits s = false -> forall n, snd (parseUintLoop s n) <> None.
Proof.
  induction s as [|c s IH]; intros Hd n; [discriminate Hd|].
  cbn [allDigits] in Hd. cbn [parseUintLoop]. fold (isDigit c).
  destruct (isDigit c); cbn [andb] in Hd.
  - repeat match goal with
           | |- context [if ?b then _ else _] => destruct b
           end;
      try (apply IH; exact Hd); cbn; discriminate.
  - cbn. discriminate.
Qed.

(** The value [Atoi] returns beside an error is fixed by the error: 0 for
    a syntax error, the nearer bound of [int] for a range error. *)
Lemma Atoi_error_value (s : string) (v : Z) (e : NumError) :
  Atoi s = (v, Some e) ->
  match e with
  | ErrSyntax => v = 0
  | ErrRange => v = maxInt64 \/ v = minInt64
  end.
Proof.
  unfold Atoi.
  destruct ((0 <? len s) && (len s <? 19)).
  - destruct s as [|c rest]; [intros H; inversion H; reflexivity|].
    repeat match goal with
           | |- context [if ?b then _ else _] => destruct b
           | |- context [match ?o with Some _ => _ | None => _ end] =>
               destruct o
           end;
      intros H; inversion H; reflexivity.
  - unfold ParseInt10.
    destruct s as [|c rest]; [intros H; inversion H; reflexivity|].
    destruct (ParseUint10 _) as [un [[|]|]];
      repeat match goal with
             | |- context [if ?b then _ else _] => destruct b
             end;
      intros H; inversion H; subst; try reflexivity;
      (left; reflexivity) || (right; reflexivity).
Qed.

Lemma isDigits_allDigits (d : string) :
  isDigits d = true -> allDigits d = true /\ (1 <= String.length d)%nat.
Proof.
  destruct d; [discriminate|]. cbn [isDigits String.length].
  intros H. split; [exact H | lia].
Qed.

Lemma clampInt64_fits (x : Z) :
  minInt64 <= x <= maxInt64 -> clampInt64 x = (x, None).
Proof.
  intros H. unfold clampInt64.
  destruct (Z.ltb_spec maxInt64 x); [lia|].
  destruct (Z.ltb_spec x minInt64); [lia|]. reflexivity.
Qed.

Lemma clampInt64_above (x : Z) :
  maxInt64 < x -> clampInt64 x = (maxInt64, Some ErrRange).
Proof.
  intros H. unfold clampInt64.
  destruct (Z.ltb_spec maxInt64 x); [reflexivity|lia].
Qed.

Lemma clampInt64_below (x : Z) :
  x < minInt64 -> clampInt64 x = (minInt64, Some ErrRange).
Proof.
  intros H. unfold clampInt64.
  assert (minInt64 < maxInt64) by (unfold minInt64, maxInt64; lia).
  destruct (Z.ltb_spec maxInt64 x); [lia|].
  destruct (Z.ltb_spec x minInt64); [reflexivity|lia].
Qed.

Lemma fast_path (d : string) (neg : bool) :
  allDigits d = true -> (String.length d <= 18)%nat ->
  match atoiLoop d 0 with
  | None => (0, Some ErrSyntax)
  | Some n => (if neg then wrapI64 (- n) else n, None)
  end = clampInt64 (if neg then - digitsValue d 0 else digitsValue d 0).
Proof.
  intros Hd Hl.
  assert (10 ^ Z.of_nat (String.length d) <= 10 ^ 18) as Hp
    by (apply Z.pow_le_mono_r; lia).
  change (10 ^ 18) with 1000000000000000000 in Hp.
  assert (H63 : 2 ^ 63 = 9223372036854775808) by reflexivity.
  assert (Hmax : maxInt64 = 9223372036854775807) by reflexivity.
  assert (Hmin : minInt64 = -9223372036854775808) by reflexivity.
  pose proof (digitsValue_bounds d Hd 0 ltac:(lia)) as Hb.
  rewrite atoiLoop_digits by (try assumption; lia).
  rewrite clampInt64_fits by (destruct neg; lia).
  destruct neg; [|reflexivity].
  rewrite wrapI64_small by lia. reflexivity.
Qed.

Lemma slow_path (d : string) (neg : bool) :
  isDigits d = true ->
  match ParseUint10 d with
  | (_, Some ErrSyntax) => (0, Some ErrSyntax)
  | (un, _) =>
      let cutoff := 2 ^ (intSize - 1) in
      if negb neg && (cutoff <=? un) then (cutoff - 1, Some ErrRange)
      else if neg && (cutoff <? un) then (- cutoff, Some ErrRange)
      else let n := wrapI64 un in (if neg then wrapI64 (- n) else n, None)
  end = clampInt64 (if neg then - digitsValue d 0 else digitsValue d 0).
Proof.
  intros Hd. apply isDigits_allDigits in Hd as [Hd Hl].
  assert (ParseUint10 d = parseUintLoop d 0) as ->
    by (destruct d; [cbn in Hl; lia | reflexivity]).
  assert (HmaxU : maxUint64 = 18446744073709551615) by reflexivity.
  assert (H63 : 2 ^ 63 = 9223372036854775808) by reflexivity.
  assert (Hcut : 2 ^ (intSize - 1) = 9223372036854775808) by reflexivity.
  assert (Hmax : maxInt64 = 9223372036854775807) by reflexivity.
  assert (Hmin : minInt64 = -9223372036854775808) by reflexivity.
  rewrite parseUintLoop_digits by (try assumption; lia).
  pose proof (digitsValue_bounds d Hd 0 ltac:(lia)) as Hb.
  pose proof (pow10_pos (String.length d)) as Hp.
  cbv zeta.
  destruct (Z.leb_spec (digitsValue d 0) maxUint64) as [Hle|Hgt].
  - destruct neg; cbn [negb andb].
    + destruct (Z.ltb_spec (2 ^ (intSize - 1)) (digitsValue d 0)).
      * rewrite clampInt64_below by lia. reflexivity.
      * rewrite clampInt64_fits by lia.
        destruct (Z.eq_dec (digitsValue d 0) 9223372036854775808) as [E|E].
        -- rewrite E. reflexivity.
        -- rewrite (wrapI64_small (digitsValue d 0)) by lia.
           rewrite wrapI64_small by lia.
           reflexivity.
    + destruct (Z.leb_spec (2 ^ (intSize - 1)) (digitsValue d 0)).
      * rewrite clampInt64_above by lia. reflexivity.
      * rewrite clampInt64_fits by lia.
        rewrite wrapI64_small by lia.
        reflexivity.
  - destruct neg; cbn [negb andb].
    + destruct (Z.ltb_spec (2 ^ (intSize - 1)) maxUint64); [|lia].
      rewrite clampInt64_below by lia. reflexivity.
    + destruct (Z.leb_spec (2 ^ (intSize - 1)) maxUint64); [|lia].
      rewrite clampInt64_above by lia. reflexivity.
Qed.

(** On an optional sign followed by decimal digits, [Atoi] returns the
    integer they denote when it fits [int], and otherwise the nearer bound
    together with a range error. *)
Lemma Atoi_base10 (s : string) :
  isBase10 s = true -> Atoi s = clampInt64 (base10Value s).
Proof.
  destruct s as [|c rest]; [discriminate|].
  unfold isBase10, base10Value, Atoi, ParseInt10, byte_is.
  intros H.
  destruct (Z.eqb_spec (byteZ c) 45) as [Em|Em];
    destruct (Z.eqb_spec (byteZ c) 43) as [Ep|Ep];
    try lia; cbn [orb andb] in *.
  - (* minus sign *)
    pose proof (isDigits_allDigits rest H) as [Hd Hl].
    destruct ((0 <? len (String c rest)) && (len (String c rest) <? 19)) eqn:E.
    + destruct (Z.ltb_spec (len rest) 1); [unfold len in *; lia|].
      apply (fast_path rest true Hd).
      apply andb_prop in E as [_ E]. apply Z.ltb_lt in E.
      unfold len in E. cbn [String.length] in E. lia.
    + apply (slow_path rest true H).
  - (* plus sign *)
    pose proof (isDigits_allDigits rest H) as [Hd Hl].
    destruct ((0 <? len (String c rest)) && (len (String c rest) <? 19)) eqn:E.
    + destruct (Z.ltb_spec (len rest) 1); [unfold len in *; lia|].
      apply (fast_path rest false Hd).
      apply andb_prop in E as [_ E]. apply Z.ltb_lt in E.
      unfold len in E. cbn [String.length] in E. lia.
    + apply (slow_path rest false H).
  - (* no sign *)
    pose proof (isDigits_allDigits _ H) as [Hd Hl].
    destruct ((0 <? len (String c rest)) && (len (String c rest) <? 19)) eqn:E.
    + apply (fast_path (String c rest) false Hd).
      unfold len in E. lia.
    + apply (slow_path (String c rest) false H).
Qed.

(** Raw bytes that are not a base-10 integer always make [Atoi] report an
    error. *)
Lemma Atoi_malformed (s : string) :
  isBase10 s = false -> snd (Atoi s) <> None.
Proof.
  destruct s as [|c rest]; [cbn; discriminate|].
  unfold isBase10, Atoi, ParseInt10, byte_is.
  intros H.
  assert (forall d, isDigits d = false ->
                    d = EmptyString \/ allDigits d = false) as Hnd
    by (intros [|a d] Hd; [left; reflexivity | right; exact Hd]).
  assert (forall d neg, d = EmptyString \/ allDigits d = false ->
            snd (match ParseUint10 d with
                 | (_, Some ErrSyntax) => (0, Some ErrSyntax)
                 | (un, _) =>
                     let cutoff := 2 ^ (intSize - 1) in
                     if negb neg && (cutoff <=? un)
                     then (cutoff - 1, Some ErrRange)
                     else if neg && (cutoff <? un)
                          then (- cutoff, Some ErrRange)
                          else let n := wrapI64 un in
                               (if neg then wrapI64 (- n) else n, None)
                 end) <> None) as Hslow.
  { intros d neg [->|Hd]; [cbn; discriminate|].
    assert (ParseUint10 d = parseUintLoop d 0) as ->
      by (destruct d; [discriminate Hd | reflexivity]).
    pose proof (parseUintLoop_not_digits d Hd 0) as Hne.
    pose proof (parseUintLoop_error d 0) as He.
    destruct (parseUintLoop d 0) as [un [[|]|]]; cbn [snd] in *.
    - discriminate.
    - destruct (He un) as [_ Hr]. rewrite (Hr eq_refl).
      destruct neg; cbn; discriminate.
    - congruence. }
  destruct (Z.eqb_spec (byteZ c) 45) as [Em|Em];
    destruct (Z.eqb_spec (byteZ c) 43) as [Ep|Ep];
    try lia; cbn [orb andb] in *;
    destruct ((0 <? len (String c rest)) && (len (String c rest) <? 19));
    try (apply Hslow; apply Hnd; exact H).
  - destruct (Hnd _ H) as [->|Hd]; [cbn; discriminate|].
    destruct (len rest <? 1); [cbn; discriminate|].
    rewrite atoiLoop_not_digits by exact Hd. cbn; discriminate.
  - destruct (Hnd _ H) as [->|Hd]; [cbn; discriminate|].
    destruct (len rest <? 1); [cbn; discriminate|].
    rewrite atoiLoop_not_digits by exact Hd. cbn; discriminate.
  - destruct (Hnd _ H) as [Hd|Hd]; [discriminate Hd|].
    rewrite atoiLoop_not_digits by exact Hd. cbn; discriminate.
Qed.

Lemma digitRun_allDigits (s : string) : allDigits (digitRun s) = true.
Proof.
  induction s as [|c s IH]; [reflexivity|].
  cbn [digitRun]. destruct (isDigit c) eqn:Hc; [|reflexivity].
  cbn [allDigits]. rewrite Hc. exact IH.
Qed.

Lemma digitRun_length (s : string) :
  (String.length (digitRun s) <= String.length s)%nat.
Proof.
  induction s as [|c s IH]; [cbn; lia|].
  cbn [digitRun]. destruct (isDigit c); cbn [String.length]; lia.
Qed.

(** Nineteen digits or fewer stay below 2^64. *)
Lemma digitRun_small (s : string) :
  (String.length s <= 19)%nat ->
  (maxUint64 <? digitsValue (digitRun s) 0) = false.
Proof.
  intros Hl. apply Z.ltb_ge.
  pose proof (digitsValue_bounds _ (digitRun_allDigits s) 0 ltac:(lia)) as Hb.
  pose proof (digitRun_length s) as Hr.
  assert (10 ^ Z.of_nat (String.length (digitRun s)) <= 10 ^ 19) as Hp
    by (apply Z.pow_le_mono_r; lia).
  change (10 ^ 19) with 10000000000000000000 in Hp.
  assert (Hmax : maxUint64 = 18446744073709551615) by reflexivity.
  lia.
Qed.

(** The digit loop of [ParseUint] on any bytes: a range error as soon as the
    leading digits pass 2^64 - 1, whatever follows them; otherwise the number
    read, or a syntax error at the first byte that is no digit. *)
Lemma parseUintLoop_exact (s : string) :
  forall n, 0 <= n <= maxUint64 ->
    parseUintLoop s n =
      if maxUint64 <? digitsValue (digitRun s) n
      then (maxUint64, Some ErrRange)
      else if allDigits s then (digitsValue s n, None)
           else (0, Some ErrSyntax).
Proof.
  assert (Hcut : maxUint64 / 10 + 1 = 1844674407370955162) by reflexivity.
  assert (Hmax : maxUint64 = 18446744073709551615) by reflexivity.
  assert (H64 : 2 ^ 64 = 18446744073709551616) by reflexivity.
  induction s as [|c s IH]; intros n Hn.
  - cbn [parseUintLoop digitRun digitsValue allDigits].
    destruct (Z.ltb_spec maxUint64 n); [lia | reflexivity].
  - cbn [parseUintLoop digitRun allDigits]. fold (isDigit c).
    destruct (isDigit c) eqn:Hc; cbn [digitsValue andb].
    + apply isDigit_range in Hc.
      pose proof (digitsValue_bounds _ (digitRun_allDigits s)
                    (n * 10 + (byteZ c - 48)) ltac:(lia)) as Hb.
      pose proof (pow10_pos (String.length (digitRun s))) as Hp.
      rewrite Hcut.
      destruct (Z.leb_spec 1844674407370955162 n) as [E1|E1].
      * destruct (Z.ltb_spec maxUint64
                    (digitsValue (digitRun s) (n * 10 + (byteZ c - 48))));
          [reflexivity | nia].
      * rewrite (wrapU64_small (n * 10)) by lia.
        destruct (Z.ltb_spec (n * 10 + (byteZ c - 48)) 18446744073709551616)
          as [Hlt|Hge].
        -- rewrite wrapU64_small by lia.
           destruct (Z.ltb_spec (n * 10 + (byteZ c - 48)) (n * 10)); [lia|].
           destruct (Z.ltb_spec maxUint64 (n * 10 + (byteZ c - 48))); [lia|].
           cbn [orb]. apply IH. lia.
        -- assert (wrapU64 (n * 10 + (byteZ c - 48))
                   = n * 10 + (byteZ c - 48) - 18446744073709551616) as Hw.
           { unfold wrapU64. rewrite H64. symmetry.
             apply Z.mod_unique with (q := 1); lia. }
           rewrite Hw.
           destruct (Z.ltb_spec
                       (n * 10 + (byteZ c - 48) - 18446744073709551616)
                       (n * 10)); [|lia].
           cbn [orb].
           destruct (Z.ltb_spec maxUint64
                       (digitsValue (digitRun s) (n * 10 + (byteZ c - 48))));
             [reflexivity | nia].
    + destruct (Z.ltb_spec maxUint64 n); [lia | reflexivity].
Qed.

Lemma slow_path_malformed (d : string) (neg : bool) :
  isDigits d = false ->
  match ParseUint10 d with
  | (_, Some ErrSyntax) => (0, Some ErrSyntax)
  | (un, _) =>
      let cutoff := 2 ^ (intSize - 1) in
      if negb neg && (cutoff <=? un) then (cutoff - 1, Some ErrRange)
      else if neg && (cutoff <? un) then (- cutoff, Some ErrRange)
      else let n := wrapI64 un in (if neg then wrapI64 (- n) else n, None)
  end =
  if maxUint64 <? digitsValue (digitRun d) 0
  then (if neg then minInt64 else maxInt64, Some ErrRange)
  else (0, Some ErrSyntax).
Proof.
  intros Hd.
  destruct d as [|a d]; [reflexivity|].
  cbn [isDigits] in Hd.
  assert (ParseUint10 (String a d) = parseUintLoop (String a d) 0) as ->
    by reflexivity.
  assert (HmaxU : maxUint64 = 18446744073709551615) by reflexivity.
  assert (Hcut : 2 ^ (intSize - 1) = 9223372036854775808) by reflexivity.
  assert (Hmax : maxInt64 = 9223372036854775808 - 1) by reflexivity.
  assert (Hmin : minInt64 = - 9223372036854775808) by reflexivity.
  rewrite parseUintLoop_exact by lia. rewrite Hd.
  destruct (maxUint64 <? digitsValue (digitRun (String a d)) 0);
    [|reflexivity].
  cbv zeta. rewrite Hcut, Hmax, Hmin.
  destruct neg; cbn [negb andb].
  - destruct (Z.ltb_spec 9223372036854775808 maxUint64); [reflexivity | lia].
  - destruct (Z.leb_spec 9223372036854775808 maxUint64); [reflexivity | lia].
Qed.

(** What [Atoi] returns on raw bytes that are no base-10 integer: the bound
    of [int] on the side of the sign, with a range error, when the digits in
    front of the first malformed byte already pass 2^64 - 1; in every other
    case 0 with a syntax error. *)
Lemma Atoi_malformed_value (s : string) :
  isBase10 s = false ->
  Atoi s =
    if overflowsUint64 s
    then (if hasMinus s then minInt64 else maxInt64, Some ErrRange)
    else (0, Some ErrSyntax).
Proof.
  destruct s as [|c rest]; [reflexivity|].
  unfold isBase10, Atoi, ParseInt10, overflowsUint64, skipSign, hasMinus,
    byte_is.
  intros H.
  assert (forall d, isDigits d = false ->
                    d = EmptyString \/ allDigits d = false) as Hnd
    by (intros [|a d] Hd; [left; reflexivity | right; exact Hd]).
  destruct (Z.eqb_spec (byteZ c) 45) as [Em|Em];
    destruct (Z.eqb_spec (byteZ c) 43) as [Ep|Ep];
    try lia; cbn [orb andb] in *;
    destruct ((0 <? len (String c rest)) && (len (String c rest) <? 19)) eqn:E;
    try (apply (slow_path_malformed _ true); exact H);
    try (apply (slow_path_malformed _ false); exact H);
    apply andb_prop in E as [_ E]; apply Z.ltb_lt in E;
    unfold len in E; cbn [String.length] in E.
  - rewrite digitRun_small by lia.
    destruct (Hnd _ H) as [->|Hd]; [reflexivity|].
    destruct (len rest <? 1); [reflexivity|].
    rewrite atoiLoop_not_digits by exact Hd. reflexivity.
  - rewrite digitRun_small by lia.
    destruct (Hnd _ H) as [->|Hd]; [reflexivity|].
    destruct (len rest <? 1); [reflexivity|].
    rewrite atoiLoop_not_digits by exact Hd. reflexivity.
  - rewrite digitRun_small by (cbn [String.length]; lia).
    destruct (Hnd _ H) as [Hd|Hd]; [discriminate Hd|].
    rewrite atoiLoop_not_digits by exact Hd. reflexivity.
Qed.

End AtoiFacts.

(** A range error beside a nonzero value: twenty nines do not fit [int]. *)
Example Atoi_out_of_range :
  strconv.Atoi "99999999999999999999"
  = (9223372036854775807, Some strconv.ErrRange).
Proof. vm_compute. reflexivity. Qed.

(** ** Numeric literals *)

Section NumericLiterals.

Variable ParseFloat : string -> float * option strconv.NumError.

Local Abbreviation parseValue := (parseValue ParseFloat).

Lemma parseValue_int (val : sqlparser.SQLVal.t) :
  sqlparser.SQLVal.Type_ val = sqlparser.IntVal ->
  parseValue (Some val) =
    Some {| Value.valueType := ValueTypeInt;
            Value.raw := sqlparser.SQLVal.Val val;
            Value.strVal := "";
            Value.intVal := fst (strconv.Atoi (sqlparser.SQLVal.Val val));
            Value.floatVal := 0%float;
            Value.bitVal := false |}.
Proof. intros Hty. unfold parseValue. rewrite Hty. reflexivity. Qed.

Lemma parseValue_float (val : sqlparser.SQLVal.t) :
  sqlparser.SQLVal.Type_ val = sqlparser.FloatVal ->
  parseValue (Some val) =
    Some {| Value.valueType := ValueTypeFloat;
            Value.raw := sqlparser.SQLVal.Val val;
            Value.strVal := "";
            Value.intVal := 0;
            Value.floatVal := fst (ParseFloat (sqlparser.SQLVal.Val val));
            Value.bitVal := false |}.
Proof. intros Hty. unfold parseValue. rewrite Hty. reflexivity. Qed.

End NumericLiterals.

(** What [strconv.ParseFloat] returns on bytes it does not accept. *)
Lemma ParseFloat_malformed
    (convert : string -> float * option strconv.NumError) (s : string) :
  strconv.floatSyntax s = false ->
  strconv.ParseFloat convert s = (0%float, Some strconv.ErrSyntax).
Proof.
  unfold strconv.floatSyntax, strconv.ParseFloat.
  destruct (strconv.special s); [discriminate|].
  intros ->. reflexivity.
Qed.

(** C5, as amended.  A literal of Integer kind always yields a [Value] of
    Integer kind.  Its payload is the base-10 signed integer the raw bytes
    denote when that fits [int], and the nearer bound of [int] when it does
    not.  On raw bytes that are no base-10 integer the payload is zero, with
    one exception: when the digits in front of the first malformed byte,
    after an optional sign, already denote more than 2^64 - 1, the payload is
    the largest [int], or the smallest one after a minus sign.  A literal of
    Float kind always yields a [Value] of Float kind: its payload is zero on
    raw bytes [ParseFloat] does not accept, the special value they name, or
    the float the accepted number converts to.  The result has no error
    channel: no decode failure is surfaced. *)
Theorem parseValue_numeric
    (convert : string -> float * option strconv.NumError)
    (val : sqlparser.SQLVal.t) :
  let raw := sqlparser.SQLVal.Val val in
  (sqlparser.SQLVal.Type_ val = sqlparser.IntVal ->
   exists v,
     parseValue (strconv.ParseFloat convert) (Some val) = Some v /\
     Value.valueType v = ValueTypeInt /\
     (isBase10 raw = true ->
      strconv.minInt64 <= base10Value raw <= strconv.maxInt64 ->
      Value.intVal v = base10Value raw) /\
     (isBase10 raw = true -> strconv.maxInt64 < base10Value raw ->
      Value.intVal v = strconv.maxInt64) /\
     (isBase10 raw = true -> base10Value raw < strconv.minInt64 ->
      Value.intVal v = strconv.minInt64) /\
     (isBase10 raw = false -> overflowsUint64 raw = false ->
      Value.intVal v = 0) /\
     (isBase10 raw = false -> overflowsUint64 raw = true ->
      Value.intVal v =
        if strconv.hasMinus raw then strconv.minInt64
        else strconv.maxInt64)) /\
  (sqlparser.SQLVal.Type_ val = sqlparser.FloatVal ->
   exists v,
     parseValue (strconv.ParseFloat convert) (Some val) = Some v /\
     Value.valueType v = ValueTypeFloat /\
     (strconv.floatSyntax raw = false -> Value.floatVal v = 0%float) /\
     (forall f, strconv.special raw = Some f -> Value.floatVal v = f) /\
     (strconv.special raw = None -> strconv.numberSyntax raw = true ->
      Value.floatVal v = fst (convert raw))).
Proof.
  intros raw. split; intros Hty.
  - eexists. split; [apply parseValue_int; exact Hty|].
    cbn [Value.valueType Value.intVal]. fold raw.
    repeat split.
    + intros Hwf Hfit. rewrite (Atoi_base10 raw Hwf).
      rewrite clampInt64_fits by exact Hfit. reflexivity.
    + intros Hwf Hbig. rewrite (Atoi_base10 raw Hwf).
      rewrite clampInt64_above by exact Hbig. reflexivity.
    + intros Hwf Hsmall. rewrite (Atoi_base10 raw Hwf).
      rewrite clampInt64_below by exact Hsmall. reflexivity.
    + intros Hmal Hrun. rewrite (Atoi_malformed_value raw Hmal), Hrun.
      reflexivity.
    + intros Hmal Hrun. rewrite (Atoi_malformed_value raw Hmal), Hrun.
      reflexivity.
  - eexists. split; [apply parseValue_float; exact Hty|].
    cbn [Value.valueType Value.floatVal]. fold raw.
    repeat split.
    + intros Hmal. rewrite (ParseFloat_malformed convert raw Hmal).
      reflexivity.
    + intros f Hf. unfold strconv.ParseFloat. rewrite Hf. reflexivity.
    + intros Hs Hn. unfold strconv.ParseFloat. rewrite Hs, Hn. reflexivity.
Qed.

(** ** The table builder and the index extractor *)

Lemma fold_left_append_map {A B : Type} (f : A -> B) (l : list A) :
  forall init : list B,
    fold_left (fun acc x => (acc ++ [f x])%list) l init
    = (init ++ map f l)%list.
Proof.
  induction l as [|x l IH]; intros init; cbn [fold_left map].
  - symmetry. apply app_nil_r.
  - rewrite IH, <- app_assoc. reflexivity.
Qed.

Section TableBuilder.

Variable ParseFloat : string -> float * option strconv.NumError.

Local Abbreviation parseValue := (parseValue ParseFloat).
Local Abbreviation parseColumn := (parseColumn ParseFloat).
Local Abbreviation parseTable := (parseTable ParseFloat).

(** C3.  [parseTable] yields the columns of the node one for one and in
    declaration order, each with default, length and scale extracted by
    [parseValue], and the inline indexes one for one and in declaration order,
    each with its (column name, prefix length) pairs in declaration order.
    Nothing is reordered, merged, dropped or rejected. *)
Theorem parseTable_in_order (stmt : sqlparser.DDL.t) :
  let spec := sqlparser.DDL.TableSpec stmt in
  Table.columns (parseTable stmt)
    = map parseColumn (sqlparser.TableSpec.Columns spec) /\
  (forall def : sqlparser.ColumnDefinition.t,
     let ty := sqlparser.ColumnDefinition.Type_ def in
     Column.name (parseColumn def)
       = sqlparser.ColIdent.String (sqlparser.ColumnDefinition.Name def) /\
     Column.defaultVal (parseColumn def)
       = parseValue (sqlparser.ColumnType.Default ty) /\
     Column.length (parseColumn def)
       = parseValue (sqlparser.ColumnType.Length ty) /\
     Column.scale (parseColumn def)
       = parseValue (sqlparser.ColumnType.Scale ty)) /\
  Table.indexes (parseTable stmt)
    = map (fun indexDef =>
             let info := sqlparser.IndexDefinition.Info indexDef in
             {| Index.name :=
                  sqlparser.ColIdent.String (sqlparser.IndexInfo.Name info);
                Index.indexType := sqlparser.IndexInfo.Type_ info;
                Index.columns :=
                  map (fun column =>
                         {| IndexColumn.column :=
                              sqlparser.ColIdent.String
                                (sqlparser.IndexColumn.Column column);
                            IndexColumn.length :=
                              parseValue
                                (sqlparser.IndexColumn.Length column) |})
                    (sqlparser.IndexDefinition.Columns indexDef);
                Index.primary := sqlparser.IndexInfo.Primary info;
                Index.unique := sqlparser.IndexInfo.Unique info |})
        (sqlparser.TableSpec.Indexes spec) /\
  List.length (Table.columns (parseTable stmt))
    = List.length (sqlparser.TableSpec.Columns spec) /\
  List.length (Table.indexes (parseTable stmt))
    = List.length (sqlparser.TableSpec.Indexes spec).
Proof.
  intros spec.
  assert (Hc : Table.columns (parseTable stmt)
               = map parseColumn (sqlparser.TableSpec.Columns spec)).
  { unfold parseTable. cbn [Table.columns].
    rewrite (fold_left_append_map parseColumn). reflexivity. }
  split; [exact Hc|]. split; [intros def; repeat split|].
  match goal with |- ?A /\ _ => assert (Hi : A) end.
  { unfold parseTable. cbn [Table.indexes].
    rewrite fold_left_append_map. cbn [app].
    apply map_ext. intros indexDef. cbv zeta.
    rewrite fold_left_append_map. reflexivity. }
  split; [exact Hi|].
  split; [rewrite Hc | rewrite Hi]; apply length_map.
Qed.

End TableBuilder.

Section IndexExtractor.

Variable GoSyntax : sqlparser.DDL.t -> string.

Local Abbreviation parseIndex := (parseIndex GoSyntax).

(** C4.  Without an index specification [parseIndex] fails with the
    missing-index-specification error; with one it returns the index named by
    the specification, over the column identifiers of the node in order, each
    without prefix length, with an empty index type, not primary, and unique
    exactly when the specification says so. *)
Theorem parseIndex_spec (stmt : sqlparser.DDL.t) :
  match sqlparser.DDL.IndexSpec stmt with
  | None => parseIndex stmt = inr (MissingIndexSpec (GoSyntax stmt))
  | Some indexSpec =>
      parseIndex stmt =
        inl {| Index.name :=
                 sqlparser.ColIdent.String (sqlparser.IndexSpec.Name indexSpec);
               Index.indexType := "";
               Index.columns :=
                 map (fun colIdent =>
                        {| IndexColumn.column :=
                             sqlparser.ColIdent.String colIdent;
                           IndexColumn.length := None |})
                   (sqlparser.DDL.IndexCols stmt);
               Index.primary := false;
               Index.unique := sqlparser.IndexSpec.Unique indexSpec |}
  end.
Proof.
  unfold parseIndex.
  destruct (sqlparser.DDL.IndexSpec stmt) as [indexSpec|]; [|reflexivity].
  rewrite fold_left_append_map. reflexivity.
Qed.

End IndexExtractor.

(** ** The dispatcher *)

Lemma string_append_assoc (a b c : string) : (a ++ b) ++ c = a ++ (b ++ c).
Proof.
  induction a as [|x a IH]; cbn [append]; [reflexivity|].
  rewrite IH. reflexivity.
Qed.

Lemma UnsupportedAction_keeps_text (action ddl : string) :
  exists before, UnsupportedAction action ddl = before ++ ddl.
Proof.
  unfold UnsupportedAction. eexists.
  rewrite <- !string_append_assoc. reflexivity.
Qed.

Section Dispatcher.

Variable ParseFloat : string -> float * option strconv.NumError.
Variable ParseWithMode :
  string -> sqlparser.ParserMode -> sqlparser.Statement + error.
Variable GoSyntax : sqlparser.DDL.t -> string.

Local Abbreviation parseTable := (parseTable ParseFloat).
Local Abbreviation parseIndex := (parseIndex GoSyntax).
Local Abbreviation parseDDL := (parseDDL ParseFloat ParseWithMode GoSyntax).
Local Abbreviation parseDDLs := (parseDDLs ParseFloat ParseWithMode GoSyntax).
Local Abbreviation parsesTo := (parsesTo ParseFloat ParseWithMode GoSyntax).
Local Abbreviation loop := (parseDDLsLoop ParseFloat ParseWithMode GoSyntax).

(** C1.  When the grammar returns a DDL node, [parseDDL] returns the variant
    that matches the action of the node: [CreateTable] for "create",
    [CreateIndex] for "create index", [AddIndex] for "add index" and
    [AddPrimaryKey] for "add primary key", the three index variants carrying
    the table name of the node and the index [parseIndex] builds from it; for
    any other action it fails with the unsupported-action error, whose message
    ends with the statement text.  When the grammar returns a node that is not
    DDL, it fails with the unsupported-statement error.  The node is one the
    grammar builds: for the three index actions it carries an index
    specification. *)
Theorem parseDDL_dispatch (mode : GeneratorMode) (ddl : string) :
  (forall stmt : sqlparser.DDL.t,
     ParseWithMode ddl (parserModeOf mode) = inl (sqlparser.DDLStmt stmt) ->
     let action := sqlparser.DDL.Action stmt in
     (In action indexActions -> sqlparser.DDL.IndexSpec stmt <> None) ->
     (action = "create" ->
      parseDDL mode ddl = inl (CreateTable ddl (parseTable stmt))) /\
     (action = "create index" ->
      exists index,
        parseIndex stmt = inl index /\
        parseDDL mode ddl = inl (CreateIndex ddl (tableNameOf stmt) index)) /\
     (action = "add index" ->
      exists index,
        parseIndex stmt = inl index /\
        parseDDL mode ddl = inl (AddIndex ddl (tableNameOf stmt) index)) /\
     (action = "add primary key" ->
      exists index,
        parseIndex stmt = inl index /\
        parseDDL mode ddl
          = inl (AddPrimaryKey ddl (tableNameOf stmt) index)) /\
     (~ In action supportedActions ->
      parseDDL mode ddl = inr (UnsupportedAction action ddl) /\
      exists before, UnsupportedAction action ddl = before ++ ddl)) /\
  (forall typeName : string,
     ParseWithMode ddl (parserModeOf mode)
       = inl (sqlparser.OtherStmt typeName) ->
     parseDDL mode ddl = inr (UnsupportedStatement ddl)).
Proof.
  split.
  - intros stmt Hparse action Hspec.
    assert (Hidx : In action indexActions ->
                   exists index, parseIndex stmt = inl index).
    { intros Hin. specialize (Hspec Hin). unfold parseIndex.
      destruct (sqlparser.DDL.IndexSpec stmt); [eexists; reflexivity|].
      contradiction. }
    unfold parseDDL. rewrite Hparse. cbn [bind]. fold action.
    fold (tableNameOf stmt).
    unfold supportedActions, indexActions in *. cbn [In] in *.
    repeat split.
    + intros ->. reflexivity.
    + intros E. destruct Hidx as [index Hindex]; [intuition congruence|].
      exists index. split; [exact Hindex|].
      rewrite E. cbn [String.eqb Ascii.eqb Bool.eqb].
      rewrite Hindex. reflexivity.
    + intros E. destruct Hidx as [index Hindex]; [intuition congruence|].
      exists index. split; [exact Hindex|].
      rewrite E. cbn [String.eqb Ascii.eqb Bool.eqb].
      rewrite Hindex. reflexivity.
    + intros E. destruct Hidx as [index Hindex]; [intuition congruence|].
      exists index. split; [exact Hindex|].
      rewrite E. cbn [String.eqb Ascii.eqb Bool.eqb].
      rewrite Hindex. reflexivity.
    + clear Hspec Hidx.
      destruct (String.eqb_spec action "create"); [intuition congruence|].
      destruct (String.eqb_spec action "create index"); [intuition congruence|].
      destruct (String.eqb_spec action "add index"); [intuition congruence|].
      destruct (String.eqb_spec action "add primary key"); [intuition congruence|].
      reflexivity.
    + apply UnsupportedAction_keeps_text.
  - intros typeName Hparse.
    unfold parseDDL. rewrite Hparse. reflexivity.
Qed.

(** The error of the grammar is handed on untouched. *)
Lemma parseDDL_syntax_error (mode : GeneratorMode) (ddl : string) (err : error) :
  ParseWithMode ddl (parserModeOf mode) = inr err ->
  parseDDL mode ddl = inr err.
Proof. intros H. unfold parseDDL. rewrite H. reflexivity. Qed.

(** ** The splitter *)

Lemma parseDDLsLoop_all (mode : GeneratorMode) (ddls : list string) :
  forall result ds,
    Forall2 (parsesTo mode)
      (filter (fun ddl => negb (len ddl =? 0)) (map strings.TrimSpace ddls))
      ds ->
    loop mode ddls result = ((result ++ ds)%list, None).
Proof.
  induction ddls as [|ddl ddls IH]; intros result ds Hall;
    cbn [map filter] in Hall; cbn [parseDDLsLoop].
  - inversion Hall. rewrite app_nil_r. reflexivity.
  - destruct (len (strings.TrimSpace ddl) =? 0); cbn [negb] in Hall.
    + apply IH. exact Hall.
    + inversion Hall as [|c d cs ds' Hhead Htail]; subst.
      unfold parsesTo in Hhead. rewrite Hhead.
      rewrite (IH _ _ Htail), <- app_assoc. reflexivity.
Qed.

Lemma parseDDLsLoop_stops (mode : GeneratorMode) (ddls : list string) :
  forall result before ddl after ds err,
    filter (fun ddl => negb (len ddl =? 0)) (map strings.TrimSpace ddls)
      = (before ++ ddl :: after)%list ->
    Forall2 (parsesTo mode) before ds ->
    parseDDL mode ddl = inr err ->
    loop mode ddls result = ((result ++ ds)%list, Some err).
Proof.
  induction ddls as [|piece ddls IH];
    intros result before ddl after ds err Hsplit Hbefore Herr;
    cbn [map filter] in Hsplit; cbn [parseDDLsLoop].
  - destruct before; discriminate Hsplit.
  - destruct (len (strings.TrimSpace piece) =? 0); cbn [negb] in Hsplit.
    + eapply IH; eassumption.
    + destruct before as [|c before]; cbn [app] in Hsplit;
        inversion Hsplit; subst.
      * inversion Hbefore. rewrite Herr, app_nil_r. reflexivity.
      * inversion Hbefore as [|c' d cs ds' Hhead Htail]; subst.
        unfold parsesTo in Hhead. rewrite Hhead.
        rewrite (IH _ _ _ _ _ _ H1 Htail Herr), <- app_assoc. reflexivity.
Qed.

Lemma candidates_outcome (mode : GeneratorMode) (cands : list string) :
  (exists ds, Forall2 (parsesTo mode) cands ds) \/
  (exists before ddl after ds err,
     cands = (before ++ ddl :: after)%list /\
     Forall2 (parsesTo mode) before ds /\
     parseDDL mode ddl = inr err).
Proof.
  induction cands as [|c cands IH].
  - left. exists []. constructor.
  - destruct (parseDDL mode c) as [d|err] eqn:Hc.
    + destruct IH as [[ds Hds]|(before & ddl & after & ds & err & -> & Hb & He)].
      * left. exists (d :: ds). constructor; assumption.
      * right. exists (c :: before), ddl, after, (d :: ds), err.
        repeat split; [constructor; assumption | exact He].
    + right. exists [], c, cands, [], err.
      repeat split; [constructor | exact Hc].
Qed.

(** C2.  [parseDDLs] works on the candidates of the batch --- the pieces
    between semicolons, trimmed, the empty ones left out --- in order: when
    every candidate parses, it returns all the statements and no error; when
    one fails, it returns the statements of the candidates before the first
    failing one together with that candidate's error, and looks no further.
    One of the two always applies. *)
Theorem parseDDLs_partial_progress (mode : GeneratorMode) (str : string) :
  (forall ds,
     Forall2 (parsesTo mode) (candidates str) ds ->
     parseDDLs mode str = (ds, None)) /\
  (forall before ddl after ds err,
     candidates str = (before ++ ddl :: after)%list ->
     Forall2 (parsesTo mode) before ds ->
     parseDDL mode ddl = inr err ->
     parseDDLs mode str = (ds, Some err)) /\
  ((exists ds, Forall2 (parsesTo mode) (candidates str) ds) \/
   (exists before ddl after ds err,
      candidates str = (before ++ ddl :: after)%list /\
      Forall2 (parsesTo mode) before ds /\
      parseDDL mode ddl = inr err)).
Proof.
  unfold parseDDLs, candidates. repeat split.
  - intros ds Hall. apply (parseDDLsLoop_all mode _ [] ds Hall).
  - intros before ddl after ds err Hsplit Hbefore Herr.
    apply (parseDDLsLoop_stops mode _ [] before ddl after ds err);
      assumption.
  - apply candidates_outcome.
Qed.

End Dispatcher.

(** C10.  Every mode other than [GeneratorModePostgres], whether it is
    [GeneratorModeMysql] or a number outside the enumeration, makes
    [parseDDL] put the statement to the grammar in MySQL mode and translate
    what the grammar answers there: the error of the grammar is handed on, a
    node that is not DDL gives the unsupported-statement error, and a DDL node
    is dispatched on its action.  The mode itself is never a reason to fail,
    and the answer of the grammar in Postgres mode plays no part. *)
Theorem parseDDL_mode_defaults_to_mysql
    (ParseFloat : string -> float * option strconv.NumError)
    (ParseWithMode :
       string -> sqlparser.ParserMode -> sqlparser.Statement + error)
    (GoSyntax : sqlparser.DDL.t -> string)
    (mode : GeneratorMode) (ddl : string) :
  mode <> GeneratorModePostgres ->
  parserModeOf mode = sqlparser.ParserModeMysql /\
  match ParseWithMode ddl sqlparser.ParserModeMysql with
  | inr err =>
      parseDDL ParseFloat ParseWithMode GoSyntax mode ddl = inr err
  | inl (sqlparser.OtherStmt _) =>
      parseDDL ParseFloat ParseWithMode GoSyntax mode ddl
        = inr (UnsupportedStatement ddl)
  | inl (sqlparser.DDLStmt stmt) =>
      let action := sqlparser.DDL.Action stmt in
      (action = "create" ->
       parseDDL ParseFloat ParseWithMode GoSyntax mode ddl
         = inl (CreateTable ddl (parseTable ParseFloat stmt))) /\
      (action = "create index" ->
       parseDDL ParseFloat ParseWithMode GoSyntax mode ddl
         = match parseIndex GoSyntax stmt with
           | inl index => inl (CreateIndex ddl (tableNameOf stmt) index)
           | inr err => inr err
           end) /\
      (action = "add index" ->
       parseDDL ParseFloat ParseWithMode GoSyntax mode ddl
         = match parseIndex GoSyntax stmt with
           | inl index => inl (AddIndex ddl (tableNameOf stmt) index)
           | inr err => inr err
           end) /\
      (action = "add primary key" ->
       parseDDL ParseFloat ParseWithMode GoSyntax mode ddl
         = match parseIndex GoSyntax stmt with
           | inl index => inl (AddPrimaryKey ddl (tableNameOf stmt) index)
           | inr err => inr err
           end) /\
      (~ In action supportedActions ->
       parseDDL ParseFloat ParseWithMode GoSyntax mode ddl
         = inr (UnsupportedAction action ddl))
  end /\
  parseDDL ParseFloat ParseWithMode GoSyntax mode ddl
    = parseDDL ParseFloat ParseWithMode GoSyntax GeneratorModeMysql ddl /\
  (forall ParseWithMode',
     ParseWithMode' ddl sqlparser.ParserModeMysql
       = ParseWithMode ddl sqlparser.ParserModeMysql ->
     parseDDL ParseFloat ParseWithMode' GoSyntax mode ddl
       = parseDDL ParseFloat ParseWithMode GoSyntax mode ddl).
Proof.
  intros Hmode.
  assert (Hpm : parserModeOf mode = sqlparser.ParserModeMysql).
  { unfold parserModeOf.
    destruct (Z.eqb_spec mode GeneratorModePostgres); [contradiction|].
    reflexivity. }
  split; [exact Hpm|]. split; [|split].
  - unfold parseDDL. rewrite Hpm.
    destruct (ParseWithMode ddl sqlparser.ParserModeMysql)
      as [[stmt|typeName]|err]; cbn [bind]; try reflexivity.
    fold (tableNameOf stmt). cbv zeta.
    unfold supportedActions, indexActions. cbn [In].
    repeat split.
    + intros ->. reflexivity.
    + intros ->. cbn [String.eqb Ascii.eqb Bool.eqb].
      destruct (parseIndex GoSyntax stmt); reflexivity.
    + intros ->. cbn [String.eqb Ascii.eqb Bool.eqb].
      destruct (parseIndex GoSyntax stmt); reflexivity.
    + intros ->. cbn [String.eqb Ascii.eqb Bool.eqb].
      destruct (parseIndex GoSyntax stmt); reflexivity.
    + intros Hother.
      destruct (String.eqb_spec (sqlparser.DDL.Action stmt) "create");
        [intuition congruence|].
      destruct (String.eqb_spec (sqlparser.DDL.Action stmt) "create index");
        [intuition congruence|].
      destruct (String.eqb_spec (sqlparser.DDL.Action stmt) "add index");
        [intuition congruence|].
      destruct (String.eqb_spec (sqlparser.DDL.Action stmt) "add primary key");
        [intuition congruence|].
      reflexivity.
  - unfold parseDDL. rewrite Hpm. reflexivity.
  - intros P' Hagree. unfold parseDDL. rewrite Hpm, Hagree. reflexivity.
Qed.

(** ** Determinism

    Two runs of [parseDDL] on the same mode and statement text.  What a run
    meets outside [parser.go] is the grammar and the [%#v] printer, which
    shows the addresses of the pointers inside the node it prints; each run
    has its own: [ParseWithMode1] and [GoSyntax1] are the two as they answer
    during the first run, [ParseWithMode2] and [GoSyntax2] during the second.
    [strconv.ParseFloat] is a function of its argument and the same in
    both. *)


(** * The translator at work

    The statements of the specification's examples, run through the small
    collaborators of [Toy]. *)

Example create_table_round_trip :
  parseDDL Toy.ParseFloat Toy.ParseWithMode Toy.GoSyntax GeneratorModeMysql
    "CREATE TABLE t (a INT, b VARCHAR(10))"
  = inl (CreateTable "CREATE TABLE t (a INT, b VARCHAR(10))"
           {| Table.name := "t";
              Table.columns :=
                [ {| Column.name := "a"; Column.typeName := "int";
                     Column.unsigned := false; Column.notNull := false;
                     Column.autoIncrement := false;
                     Column.defaultVal := None; Column.length := None;
                     Column.scale := None; Column.keyOption := 0 |};
                  {| Column.name := "b"; Column.typeName := "varchar";
                     Column.unsigned := false; Column.notNull := false;
                     Column.autoIncrement := false;
                     Column.defaultVal := None;
                     Column.length :=
                       Some {| Value.valueType := ValueTypeInt;
                               Value.raw := "10"; Value.strVal := "";
                               Value.intVal := 10; Value.floatVal := 0%float;
                               Value.bitVal := false |};
                     Column.scale := None; Column.keyOption := 0 |} ];
              Table.indexes := [] |}).
Proof. vm_compute. reflexivity. Qed.

Example create_index_example :
  parseDDL Toy.ParseFloat Toy.ParseWithMode Toy.GoSyntax GeneratorModeMysql
    "CREATE INDEX idx ON t (col)"
  = inl (CreateIndex "CREATE INDEX idx ON t (col)" "t"
           {| Index.name := "idx"; Index.indexType := "";
              Index.columns :=
                [ {| IndexColumn.column := "col";
                     IndexColumn.length := None |} ];
              Index.primary := false; Index.unique := false |}).
Proof. vm_compute. reflexivity. Qed.

Example inline_index_example :
  Table.indexes
    (parseTable Toy.ParseFloat
       (Toy.createTable "t" [Toy.col "a" "varchar" None; Toy.col "a" "int" None]
          [ Toy.inlineIndex "k" "key" false true
              [("a", Some (Toy.lit sqlparser.IntVal "10")); ("a", None)] ]))
  = [ {| Index.name := "k"; Index.indexType := "key";
         Index.columns :=
           [ {| IndexColumn.column := "a";
                IndexColumn.length :=
                  Some {| Value.valueType := ValueTypeInt;
                          Value.raw := "10"; Value.strVal := "";
                          Value.intVal := 10; Value.floatVal := 0%float;
                          Value.bitVal := false |} |};
             {| IndexColumn.column := "a"; IndexColumn.length := None |} ];
         Index.primary := false; Index.unique := true |} ].
Proof. vm_compute. reflexivity. Qed.

Example split_skips_empty_segment :
  exists a b,
    parseDDLs Toy.ParseFloat Toy.ParseWithMode Toy.GoSyntax GeneratorModeMysql
      "CREATE TABLE a (id INT); ; CREATE TABLE b (id INT);"
    = ([CreateTable "CREATE TABLE a (id INT)" a;
        CreateTable "CREATE TABLE b (id INT)" b], None).
Proof. do 2 eexists. vm_compute. reflexivity. Qed.

Example bit_literals :
  map (fun raw =>
         option_map Value.bitVal
           (parseValue Toy.ParseFloat (Some (Toy.lit sqlparser.BitVal raw))))
    ["1"; "0"; "x"; ""; "11"]
  = [Some true; Some false; Some false; Some false; Some false].
Proof. vm_compute. reflexivity. Qed.

(** A literal of Integer kind too large for [int]: the payload is the
    largest [int], not zero. *)
Example parseValue_int_out_of_range :
  option_map Value.intVal
    (parseValue Toy.ParseFloat
       (Some (Toy.lit sqlparser.IntVal "99999999999999999999")))
  = Some 9223372036854775807.
Proof. vm_compute. reflexivity. Qed.

(** C5, as stated, fails: these raw bytes are not a base-10 integer, [Atoi]
    runs into the overflow before it reaches the stray letter, and the
    payload is the largest [int], not zero. *)
Lemma parseValue_int_malformed_not_zero :
  let val := Toy.lit sqlparser.IntVal "99999999999999999999x" in
  sqlparser.SQLVal.Type_ val = sqlparser.IntVal /\
  isBase10 (sqlparser.SQLVal.Val val) = false /\
  snd (strconv.Atoi (sqlparser.SQLVal.Val val)) = Some strconv.ErrRange /\
  option_map Value.intVal (parseValue Toy.ParseFloat (Some val))
    = Some 9223372036854775807 /\
  option_map Value.intVal (parseValue Toy.ParseFloat (Some val)) <> Some 0.
Proof.
  cbv zeta. repeat split; try (vm_compute; reflexivity).
  vm_compute. discriminate.
Qed.

(** [Atoi] on raw bytes that are no base-10 integer: zero, unless the
    digits in front of the first stray byte already pass 2^64 - 1.  The
    second text stops one above the largest [int]: no overflow of [uint64],
    so a syntax error and zero. *)
Example Atoi_malformed_examples :
  map strconv.Atoi
    [ "12x"; "9223372036854775808x"; "18446744073709551615x";
      "18446744073709551616x"; "99999999999999999999x";
      "-99999999999999999999x"; "+99999999999999999999 "; ""; "-"; "1 2" ]
  = [ (0, Some strconv.ErrSyntax); (0, Some strconv.ErrSyntax);
      (0, Some strconv.ErrSyntax);
      (9223372036854775807, Some strconv.ErrRange);
      (9223372036854775807, Some strconv.ErrRange);
      (-9223372036854775808, Some strconv.ErrRange);
      (9223372036854775807, Some strconv.ErrRange);
      (0, Some strconv.ErrSyntax); (0, Some strconv.ErrSyntax);
      (0, Some strconv.ErrSyntax) ].
Proof. vm_compute. reflexivity. Qed.

(** What [ParseFloat] accepts, and what it does not. *)
Example floatSyntax_accepts :
  forallb strconv.floatSyntax
    [ "0"; "+1"; "1.5"; ".5"; "5."; "1e10"; "1E+10"; "-1.5e-3"; "0x1p-2";
      "0X1.8P1"; "1_23.50_0e+1_2"; "0x_1_2.3_4_5p+1_2"; "inf"; "-Inf";
      "+INFINITY"; "nan"; "NaN" ] = true.
Proof. vm_compute. reflexivity. Qed.

Example floatSyntax_rejects :
  existsb strconv.floatSyntax
    [ ""; "+"; "."; "1e"; "1e-"; "e1"; ".e-1"; "0x"; "0x."; "0x1"; "0x.1";
      "0x1p"; "1x"; "1.1."; "abc"; "1e999x"; "_1"; "1_"; "1__2";
      "123_.5e+12"; "123._5e+12"; "123.5_e+12"; "123.5e_+12"; "123.5e+_12";
      "123.5e_12"; "123.5e+1__2"; "123.5e+12_"; "-_123.5e+12"; "+nan";
      "infi"; "infinityx"; "NANs"; "1 "; " 1"; "1,5"; "--1" ] = false.
Proof. vm_compute. reflexivity. Qed.

(** Literals of Float kind: an accepted number, a number too large for a
    [float64], and three malformed texts. *)
Example parseValue_float_examples :
  map (fun raw =>
         option_map Value.floatVal
           (parseValue (strconv.ParseFloat Toy.convert)
              (Some (Toy.lit sqlparser.FloatVal raw))))
    ["1.5"; "1e999"; "abc"; "1e999x"; "1.5.2"]
  = [Some 1.5%float; Some infinity; Some 0%float; Some 0%float;
     Some 0%float].
Proof. vm_compute. reflexivity. Qed.

(** Why [parseDDL_deterministic] asks for nodes as the grammar builds them:
    were a "create index" node to come without its index specification, both
    runs would fail, with messages that differ where the printer wrote an
    address. *)
Example parseDDL_runs_differ_without_spec :
  let bare (sql : string) (mode : sqlparser.ParserMode)
      : sqlparser.Statement + error :=
    inl (sqlparser.DDLStmt (Toy.indexNode "create index" "t" None ["col"])) in
  parseDDL Toy.ParseFloat bare (Toy.GoSyntaxAt "0xc000010000")
    GeneratorModeMysql "CREATE INDEX idx ON t (col)"
  <> parseDDL Toy.ParseFloat bare (Toy.GoSyntaxAt "0xc000424000")
       GeneratorModeMysql "CREATE INDEX idx ON t (col)".
Proof. cbv zeta. vm_compute. discriminate. Qed.

(** ** Instances of the theorems *)

Lemma parseValue_nil_or_unknown_witness :
  knownKind 7 = false /\
  parseValue Toy.ParseFloat (Some (Toy.lit 7 "x")) = None.
Proof.
  split; [reflexivity|].
  apply (proj2 (parseValue_nil_or_unknown Toy.ParseFloat)). reflexivity.
Defined.

Lemma parseValue_keeps_raw_witness :
  knownKind sqlparser.HexNum = true /\
  exists v,
    parseValue Toy.ParseFloat (Some (Toy.lit sqlparser.HexNum "0x1F")) = Some v
    /\ Value.raw v = "0x1F".
Proof.
  split; [reflexivity|].
  apply (proj2 (parseValue_keeps_raw Toy.ParseFloat
                  (Toy.lit sqlparser.HexNum "0x1F"))).
  reflexivity.
Defined.

Lemma parseValue_bit_witness :
  sqlparser.SQLVal.Type_ (Toy.lit sqlparser.BitVal "1") = sqlparser.BitVal /\
  option_map Value.bitVal
    (parseValue Toy.ParseFloat (Some (Toy.lit sqlparser.BitVal "1")))
  = Some true.
Proof.
  split; [reflexivity|].
  apply (parseValue_bit Toy.ParseFloat (Toy.lit sqlparser.BitVal "1"));
    reflexivity.
Defined.

Lemma parseValue_numeric_witness :
  let val := Toy.lit sqlparser.IntVal "-99999999999999999999x" in
  sqlparser.SQLVal.Type_ val = sqlparser.IntVal /\
  isBase10 (sqlparser.SQLVal.Val val) = false /\
  overflowsUint64 (sqlparser.SQLVal.Val val) = true /\
  exists v,
    parseValue (strconv.ParseFloat Toy.convert) (Some val) = Some v /\
    Value.intVal v = strconv.minInt64.
Proof.
  cbv zeta. split; [reflexivity|]. split; [reflexivity|].
  split; [vm_compute; reflexivity|].
  destruct (parseValue_numeric Toy.convert
              (Toy.lit sqlparser.IntVal "-99999999999999999999x"))
    as [Hint _].
  destruct (Hint eq_refl) as (v & Hv & _ & _ & _ & _ & _ & Hrun).
  exists v. split; [exact Hv|].
  apply Hrun; vm_compute; reflexivity.
Defined.

Lemma parseDDL_dispatch_witness :
  let ddl := "ALTER TABLE t ADD UNIQUE INDEX idx (a, b)" in
  let stmt := Toy.indexNode "add index" "t" (Toy.spec "idx" true) ["a"; "b"] in
  Toy.ParseWithMode ddl (parserModeOf GeneratorModeMysql)
    = inl (sqlparser.DDLStmt stmt) /\
  sqlparser.DDL.IndexSpec stmt <> None /\
  sqlparser.DDL.Action stmt = "add index" /\
  exists index,
    parseIndex Toy.GoSyntax stmt = inl index /\
    parseDDL Toy.ParseFloat Toy.ParseWithMode Toy.GoSyntax GeneratorModeMysql
      ddl
    = inl (AddIndex ddl "t" index).
Proof.
  cbv zeta. split; [reflexivity|].
  assert (Hspec : sqlparser.DDL.IndexSpec
                    (Toy.indexNode "add index" "t" (Toy.spec "idx" true)
                       ["a"; "b"]) <> None)
    by (vm_compute; discriminate).
  split; [exact Hspec|]. split; [reflexivity|].
  destruct (parseDDL_dispatch Toy.ParseFloat Toy.ParseWithMode Toy.GoSyntax
              GeneratorModeMysql "ALTER TABLE t ADD UNIQUE INDEX idx (a, b)")
    as [Hddl _].
  destruct (Hddl _ eq_refl (fun _ => Hspec)) as (_ & _ & Hadd & _).
  exact (Hadd eq_refl).
Defined.

Lemma parseDDLs_partial_progress_witness :
  let str := "CREATE TABLE a (id INT); DROP TABLE a;" in
  let table :=
    {| Table.name := "a";
       Table.columns :=
         [ {| Column.name := "id"; Column.typeName := "int";
              Column.unsigned := false; Column.notNull := false;
              Column.autoIncrement := false;
              Column.defaultVal := None; Column.length := None;
              Column.scale := None; Column.keyOption := 0 |} ];
       Table.indexes := [] |} in
  candidates str = ["CREATE TABLE a (id INT)"; "DROP TABLE a"] /\
  parseDDL Toy.ParseFloat Toy.ParseWithMode Toy.GoSyntax GeneratorModeMysql
    "DROP TABLE a" = inr (UnsupportedAction "drop" "DROP TABLE a") /\
  parseDDLs Toy.ParseFloat Toy.ParseWithMode Toy.GoSyntax GeneratorModeMysql str
    = ([CreateTable "CREATE TABLE a (id INT)" table],
       Some (UnsupportedAction "drop" "DROP TABLE a")).
Proof.
  cbv zeta. split; [vm_compute; reflexivity|].
  split; [vm_compute; reflexivity|].
  apply (proj1 (proj2 (parseDDLs_partial_progress
                         Toy.ParseFloat Toy.ParseWithMode Toy.GoSyntax
                         GeneratorModeMysql
                         "CREATE TABLE a (id INT); DROP TABLE a;"))
           ["CREATE TABLE a (id INT)"] "DROP TABLE a" []).
  - vm_compute. reflexivity.
  - constructor; [vm_compute; reflexivity | constructor].
  - vm_compute. reflexivity.
Defined.

Lemma parseDDL_mode_defaults_to_mysql_witness :
  let ddl := "CREATE TABLE `c` (id INT)" in
  let stmt := Toy.createTable "c" [Toy.col "id" "int" None] [] in
  7 <> GeneratorModePostgres /\
  Toy.ParseWithMode ddl sqlparser.ParserModePostgres
    = inr "syntax error at position 14" /\
  Toy.ParseWithMode ddl sqlparser.ParserModeMysql
    = inl (sqlparser.DDLStmt stmt) /\
  parseDDL Toy.ParseFloat Toy.ParseWithMode Toy.GoSyntax 7 ddl
    = inl (CreateTable ddl (parseTable Toy.ParseFloat stmt)).
Proof.
  assert (H : 7 <> GeneratorModePostgres) by (unfold GeneratorModePostgres; lia).
  cbv zeta. split; [exact H|]. split; [reflexivity|]. split; [reflexivity|].
  pose proof (proj1 (proj2 (parseDDL_mode_defaults_to_mysql
                              Toy.ParseFloat Toy.ParseWithMode Toy.GoSyntax 7
                              "CREATE TABLE `c` (id INT)" H))) as Hmysql.
  change (Toy.ParseWithMode "CREATE TABLE `c` (id INT)"
            sqlparser.ParserModeMysql)
    with (@inl sqlparser.Statement error
            (sqlparser.DDLStmt
               (Toy.createTable "c" [Toy.col "id" "int" None] [])))
    in Hmysql.
  exact (proj1 Hmysql eq_refl).
Defined.


(** * Further properties of [parser.go] *)

(** ** [castBool] and the columns of a table *)

(** X1.  [castBool] gives back the boolean it is handed: printing a
    [BoolVal] and parsing the text again loses nothing, and the error of
    [ParseBool] that [castBool] drops never occurs. *)
Theorem castBool_lossless (val : sqlparser.BoolVal) :
  castBool val = val /\
  snd (strconv.ParseBool (fmt.Sprint_bool val)) = None.
Proof. destruct val; split; reflexivity. Qed.

Section ValueKinds.

Variable ParseFloat : string -> float * option strconv.NumError.

Local Abbreviation parseValue := (parseValue ParseFloat).

(** The kind tag of the literal fixes the type tag of the value. *)
Lemma parseValue_tags (val : sqlparser.SQLVal.t) (v : Value.t) :
  parseValue (Some val) = Some v ->
  let ty := sqlparser.SQLVal.Type_ val in
  (ty = sqlparser.StrVal /\ Value.valueType v = ValueTypeStr) \/
  (ty = sqlparser.IntVal /\ Value.valueType v = ValueTypeInt) \/
  (ty = sqlparser.FloatVal /\ Value.valueType v = ValueTypeFloat) \/
  (ty = sqlparser.HexNum /\ Value.valueType v = ValueTypeHexNum) \/
  (ty = sqlparser.HexVal /\ Value.valueType v = ValueTypeHex) \/
  (ty = sqlparser.ValArg /\ Value.valueType v = ValueTypeValArg) \/
  (ty = sqlparser.BitVal /\ Value.valueType v = ValueTypeBit).
Proof.
  cbv zeta. unfold parseValue.
  repeat match goal with
         | |- context [if (?a =? ?b) then _ else _] =>
             destruct (Z.eqb_spec a b)
         end;
    try discriminate; intros H; inversion H; subst; cbn [Value.valueType];
    try (destruct (String.eqb _ _); cbn [Value.valueType Value.set_bitVal]);
    tauto.
Qed.

(** X2.  The seven kinds map to the seven value types one to one: two
    values produced by [parseValue] have the same type tag exactly when the
    literals they come from have the same kind tag. *)
Theorem parseValue_kind_one_to_one
    (val1 val2 : sqlparser.SQLVal.t) (v1 v2 : Value.t) :
  parseValue (Some val1) = Some v1 ->
  parseValue (Some val2) = Some v2 ->
  (Value.valueType v1 = Value.valueType v2 <->
   sqlparser.SQLVal.Type_ val1 = sqlparser.SQLVal.Type_ val2).
Proof.
  intros H1 H2.
  apply parseValue_tags in H1. apply parseValue_tags in H2.
  cbv zeta in H1, H2.
  unfold sqlparser.StrVal, sqlparser.IntVal, sqlparser.FloatVal,
    sqlparser.HexNum, sqlparser.HexVal, sqlparser.ValArg, sqlparser.BitVal
    in H1, H2.
  destruct H1 as [[E1 T1]|[[E1 T1]|[[E1 T1]|[[E1 T1]|[[E1 T1]|[[E1 T1]|[E1 T1]]]]]]];
    destruct H2 as [[E2 T2]|[[E2 T2]|[[E2 T2]|[[E2 T2]|[[E2 T2]|[[E2 T2]|[E2 T2]]]]]]];
    rewrite E1, E2, T1, T2; split; intros H;
    try reflexivity; try discriminate H.
Qed.

(** X3.  A value carries the payload of its own type and no other: the
    string payload is the raw text for a string and empty otherwise, and the
    integer, float and bit payloads are zero, zero and false unless the value
    is of that type.  Hex numbers, hex strings and placeholders carry their
    raw text only. *)
Theorem parseValue_single_payload (val : sqlparser.SQLVal.t) (v : Value.t) :
  parseValue (Some val) = Some v ->
  (Value.valueType v = ValueTypeStr ->
   Value.strVal v = sqlparser.SQLVal.Val val) /\
  (Value.valueType v <> ValueTypeStr -> Value.strVal v = "") /\
  (Value.valueType v <> ValueTypeInt -> Value.intVal v = 0) /\
  (Value.valueType v <> ValueTypeFloat -> Value.floatVal v = 0%float) /\
  (Value.valueType v <> ValueTypeBit -> Value.bitVal v = false).
Proof.
  unfold parseValue.
  repeat match goal with
         | |- context [if (?a =? ?b) then _ else _] => destruct (a =? b)
         end;
    try discriminate; intros H; inversion H; subst;
    try (destruct (String.eqb _ _));
    cbn; repeat split; intros Hty; try reflexivity; congruence.
Qed.

(** X4.  [parseTable] names the table after [stmt.NewName] and copies type
    name, the three flags and the key option of every column definition
    unchanged, column by column. *)
Theorem parseTable_copies_columns (stmt : sqlparser.DDL.t) :
  Table.name (parseTable ParseFloat stmt)
    = sqlparser.TableIdent.String
        (sqlparser.TableName.Name (sqlparser.DDL.NewName stmt)) /\
  Forall2
    (fun (def : sqlparser.ColumnDefinition.t) (column : Column.t) =>
       let ty := sqlparser.ColumnDefinition.Type_ def in
       Column.typeName column = sqlparser.ColumnType.Type_ ty /\
       Column.unsigned column = sqlparser.ColumnType.Unsigned ty /\
       Column.notNull column = sqlparser.ColumnType.NotNull ty /\
       Column.autoIncrement column = sqlparser.ColumnType.Autoincrement ty /\
       Column.keyOption column = sqlparser.ColumnType.KeyOpt ty)
    (sqlparser.TableSpec.Columns (sqlparser.DDL.TableSpec stmt))
    (Table.columns (parseTable ParseFloat stmt)).
Proof.
  split; [reflexivity|].
  unfold parseTable. cbn [Table.columns].
  rewrite (fold_left_append_map (parseColumn ParseFloat)). cbn [app].
  induction (sqlparser.TableSpec.Columns (sqlparser.DDL.TableSpec stmt))
    as [|def defs IH]; cbn [map]; constructor; [|exact IH].
  cbv zeta. unfold parseColumn.
  cbn [Column.typeName Column.unsigned Column.notNull Column.autoIncrement
       Column.keyOption].
  rewrite !castBool_id. repeat split.
Qed.

End ValueKinds.

(** ** What [parseDDL] returns *)

Section DispatcherResults.

Variable ParseFloat : string -> float * option strconv.NumError.
Variable ParseWithMode :
  string -> sqlparser.ParserMode -> sqlparser.Statement + error.
Variable GoSyntax : sqlparser.DDL.t -> string.

Local Abbreviation parseTable := (parseTable ParseFloat).
Local Abbreviation parseIndex := (parseIndex GoSyntax).
Local Abbreviation parseDDL := (parseDDL ParseFloat ParseWithMode GoSyntax).

(** Either outcome of [parseIndex], with what the index it builds always
    looks like. *)
Lemma parseIndex_outcome (stmt : sqlparser.DDL.t) :
  (sqlparser.DDL.IndexSpec stmt = None /\
   parseIndex stmt = inr (MissingIndexSpec (GoSyntax stmt))) \/
  (exists index,
     sqlparser.DDL.IndexSpec stmt <> None /\
     parseIndex stmt = inl index /\
     Index.primary index = false /\
     Index.indexType index = "" /\
     Forall (fun c => IndexColumn.length c = None) (Index.columns index)).
Proof.
  unfold parseIndex.
  destruct (sqlparser.DDL.IndexSpec stmt) as [indexSpec|];
    [right | left; split; reflexivity].
  eexists. split; [discriminate|]. split; [reflexivity|].
  cbn [Index.primary Index.indexType Index.columns].
  split; [reflexivity|]. split; [reflexivity|].
  rewrite fold_left_append_map. cbn [app].
  apply Forall_forall. intros c Hc.
  apply in_map_iff in Hc as (colIdent & <- & _). reflexivity.
Qed.

(** The branches of [parseDDL], one for each answer of the grammar. *)
Lemma parseDDL_cases (mode : GeneratorMode) (ddl : string) :
  match ParseWithMode ddl (parserModeOf mode) with
  | inr err => parseDDL mode ddl = inr err
  | inl (sqlparser.OtherStmt _) =>
      parseDDL mode ddl = inr (UnsupportedStatement ddl)
  | inl (sqlparser.DDLStmt stmt) =>
      let action := sqlparser.DDL.Action stmt in
      (action = "create" /\
       parseDDL mode ddl = inl (CreateTable ddl (parseTable stmt))) \/
      (action = "create index" /\
       parseDDL mode ddl
         = (index <- parseIndex stmt ;;
            inl (CreateIndex ddl (tableNameOf stmt) index))) \/
      (action = "add index" /\
       parseDDL mode ddl
         = (index <- parseIndex stmt ;;
            inl (AddIndex ddl (tableNameOf stmt) index))) \/
      (action = "add primary key" /\
       parseDDL mode ddl
         = (index <- parseIndex stmt ;;
            inl (AddPrimaryKey ddl (tableNameOf stmt) index))) \/
      (~ In action supportedActions /\
       parseDDL mode ddl = inr (UnsupportedAction action ddl))
  end.
Proof.
  unfold parseDDL.
  destruct (ParseWithMode ddl (parserModeOf mode)) as [[stmt|name]|err];
    cbn [bind]; try reflexivity.
  fold (tableNameOf stmt). cbv zeta.
  destruct (String.eqb_spec (sqlparser.DDL.Action stmt) "create") as [E|N1];
    [left; split; [exact E | reflexivity]|right].
  destruct (String.eqb_spec (sqlparser.DDL.Action stmt) "create index")
    as [E|N2]; [left; split; [exact E | reflexivity]|right].
  destruct (String.eqb_spec (sqlparser.DDL.Action stmt) "add index")
    as [E|N3]; [left; split; [exact E | reflexivity]|right].
  destruct (String.eqb_spec (sqlparser.DDL.Action stmt) "add primary key")
    as [E|N4]; [left; split; [exact E | reflexivity]|right].
  split; [|reflexivity].
  unfold supportedActions, indexActions. cbn [In].
  intros [H|[H|[H|[H|[]]]]]; congruence.
Qed.

Lemma parseDDL_statement (mode : GeneratorMode) (ddl : string) (d : DDL) :
  parseDDL mode ddl = inl d -> DDL_statement d = ddl.
Proof.
  intros H. pose proof (parseDDL_cases mode ddl) as Hc.
  destruct (ParseWithMode ddl (parserModeOf mode)) as [[stmt|name]|err];
    try congruence.
  cbv zeta in Hc.
  destruct Hc as [[_ E]|[[_ E]|[[_ E]|[[_ E]|[_ E]]]]];
    rewrite E in H; try discriminate H;
    try (destruct (parseIndex stmt); cbn [bind] in H; [|discriminate H]);
    inversion H; reflexivity.
Qed.

(** X5.  Every [DDL] value [parseDDL] returns carries the statement text it
    was given, byte for byte. *)
Theorem parseDDL_keeps_statement
    (mode : GeneratorMode) (ddl : string) (d : DDL) :
  parseDDL mode ddl = inl d -> DDL_statement d = ddl.
Proof.
  intros H. pose proof (parseDDL_cases mode ddl) as Hc.
  destruct (ParseWithMode ddl (parserModeOf mode)) as [[stmt|name]|err];
    try congruence.
  cbv zeta in Hc.
  destruct (parseIndex stmt) as [index|err] eqn:Hidx;
    destruct Hc as [[_ E]|[[_ E]|[[_ E]|[[_ E]|[_ E]]]]];
    rewrite E in H; cbn [bind] in H; try discriminate H;
    inversion H; reflexivity.
Qed.

(** X6.  [parseDDL] succeeds only on a DDL node of the grammar with one of
    the four supported actions, and the variant it returns is the one of that
    action: no [DDL] value comes out of a syntax error, of a statement that is
    not DDL, or of any other action such as a drop. *)
Theorem parseDDL_success_inversion
    (mode : GeneratorMode) (ddl : string) (d : DDL) :
  parseDDL mode ddl = inl d ->
  exists stmt,
    ParseWithMode ddl (parserModeOf mode) = inl (sqlparser.DDLStmt stmt) /\
    In (sqlparser.DDL.Action stmt) supportedActions /\
    match d with
    | CreateTable _ table =>
        sqlparser.DDL.Action stmt = "create" /\ table = parseTable stmt
    | CreateIndex _ tableName index =>
        sqlparser.DDL.Action stmt = "create index" /\
        tableName = tableNameOf stmt /\ parseIndex stmt = inl index
    | AddIndex _ tableName index =>
        sqlparser.DDL.Action stmt = "add index" /\
        tableName = tableNameOf stmt /\ parseIndex stmt = inl index
    | AddPrimaryKey _ tableName index =>
        sqlparser.DDL.Action stmt = "add primary key" /\
        tableName = tableNameOf stmt /\ parseIndex stmt = inl index
    end.
Proof.
  intros H. pose proof (parseDDL_cases mode ddl) as Hc.
  destruct (ParseWithMode ddl (parserModeOf mode)) as [[stmt|name]|err];
    try congruence.
  exists stmt. split; [reflexivity|]. cbv zeta in Hc.
  unfold supportedActions, indexActions. cbn [In].
  destruct Hc as [[A E]|[[A E]|[[A E]|[[A E]|[_ E]]]]];
    rewrite E in H; try discriminate H;
    try (destruct (parseIndex stmt) eqn:Hidx; cbn [bind] in H;
         [|discriminate H]);
    inversion H; subst; rewrite A; repeat split; tauto.
Qed.

(** X7.  The index of every index statement [parseDDL] returns is marked
    not primary, has an empty index type, and has no prefix length on any of
    its columns --- also when the statement adds a primary key. *)
Theorem parseDDL_index_fields
    (mode : GeneratorMode) (ddl : string) (d : DDL) (index : Index.t) :
  parseDDL mode ddl = inl d ->
  DDL_index d = Some index ->
  Index.primary index = false /\
  Index.indexType index = "" /\
  Forall (fun c => IndexColumn.length c = None) (Index.columns index).
Proof.
  intros H Hd. pose proof (parseDDL_cases mode ddl) as Hc.
  destruct (ParseWithMode ddl (parserModeOf mode)) as [[stmt|name]|err];
    try congruence.
  cbv zeta in Hc.
  destruct (parseIndex_outcome stmt)
    as [[_ Hidx]|(index' & _ & Hidx & Hshape)];
    destruct Hc as [[_ E]|[[_ E]|[[_ E]|[[_ E]|[_ E]]]]];
    rewrite E in H; try rewrite Hidx in H; cbn [bind] in H;
    try discriminate H; inversion H; subst; cbn [DDL_index] in Hd;
    try discriminate Hd; inversion Hd; subst; exact Hshape.
Qed.

(** X8.  The errors of [parseDDL] are of four kinds and no other: the error
    of the grammar, handed on as it is; the unsupported-statement error for a
    node that is not DDL; the unsupported-action error for a DDL node with any
    action but the four; and the error of [parseIndex] for an index action on
    a node without index specification. *)
Theorem parseDDL_error_cases
    (mode : GeneratorMode) (ddl : string) (err : error) :
  parseDDL mode ddl = inr err ->
  ParseWithMode ddl (parserModeOf mode) = inr err \/
  (exists typeName,
     ParseWithMode ddl (parserModeOf mode)
       = inl (sqlparser.OtherStmt typeName) /\
     err = UnsupportedStatement ddl) \/
  (exists stmt,
     ParseWithMode ddl (parserModeOf mode) = inl (sqlparser.DDLStmt stmt) /\
     ((~ In (sqlparser.DDL.Action stmt) supportedActions /\
       err = UnsupportedAction (sqlparser.DDL.Action stmt) ddl) \/
      (In (sqlparser.DDL.Action stmt) indexActions /\
       sqlparser.DDL.IndexSpec stmt = None /\
       err = MissingIndexSpec (GoSyntax stmt)))).
Proof.
  intros H. pose proof (parseDDL_cases mode ddl) as Hc.
  destruct (ParseWithMode ddl (parserModeOf mode)) as [[stmt|name]|e].
  - right. right. exists stmt. split; [reflexivity|]. cbv zeta in Hc.
    unfold indexActions. cbn [In].
    destruct (parseIndex_outcome stmt)
      as [[Hnone Hidx]|(index' & _ & Hidx & _)];
      destruct Hc as [[A E]|[[A E]|[[A E]|[[A E]|[A E]]]]];
      rewrite E in H; try rewrite Hidx in H; cbn [bind] in H;
      try discriminate H; inversion H; subst;
      try (left; split; [exact A | reflexivity]);
      right; rewrite A; repeat split; tauto.
  - right. left. exists name. split; [reflexivity|]. congruence.
  - left. congruence.
Qed.

End DispatcherResults.

(** ** Splitting and trimming, once more *)

Lemma Split_app (a b : string) (sep : ascii) :
  strings.Split (a ++ String sep b) sep
  = (strings.Split a sep ++ strings.Split b sep)%list.
Proof.
  induction a as [|c a IH]; cbn [append strings.Split].
  - rewrite Ascii.eqb_refl. reflexivity.
  - destruct (Ascii.eqb c sep); [rewrite IH; reflexivity|].
    rewrite IH. pose proof (Split_not_nil a sep) as Hne.
    destruct (strings.Split a sep) as [|piece pieces]; [contradiction|].
    reflexivity.
Qed.

Lemma Split_without_sep (s : string) (sep : ascii) :
  existsb (Ascii.eqb sep) (list_ascii_of_string s) = false ->
  strings.Split s sep = [s].
Proof.
  induction s as [|c s IH]; [reflexivity|].
  cbn [list_ascii_of_string existsb strings.Split]. intros H.
  apply orb_false_elim in H as [Hc Hs].
  rewrite Ascii.eqb_sym, Hc, (IH Hs). reflexivity.
Qed.

Lemma Split_pieces_bytes (s : string) (sep : ascii) :
  forall piece c,
    In piece (strings.Split s sep) ->
    In c (list_ascii_of_string piece) ->
    In c (list_ascii_of_string s).
Proof.
  induction s as [|a s IH]; intros piece c Hp Hc; cbn [strings.Split] in Hp.
  - destruct Hp as [<-|[]]. exact Hc.
  - cbn [list_ascii_of_string]. destruct (Ascii.eqb a sep).
    + destruct Hp as [<-|Hp]; [destruct Hc|].
      right. exact (IH piece c Hp Hc).
    + destruct (strings.Split s sep) as [|piece0 pieces] eqn:E.
      * destruct Hp as [<-|[]]. cbn in Hc. destruct Hc as [<-|[]].
        left. reflexivity.
      * destruct Hp as [<-|Hp].
        -- cbn [list_ascii_of_string] in Hc. destruct Hc as [<-|Hc].
           ++ left. reflexivity.
           ++ right. apply (IH piece0 c); [left; reflexivity | exact Hc].
        -- right. apply (IH piece c); [right; exact Hp | exact Hc].
Qed.

Lemma stripSpace_asciiSpace (c : ascii) (s : strings.bytes) :
  asciiSpace c = true ->
  strings.stripSpace strings.spaceEncodings (c :: s) = Some s.
Proof.
  destruct c as [[] [] [] [] [] [] [] []]; intros H;
    try discriminate H; vm_compute; reflexivity.
Qed.

Lemma trimLoop_asciiSpace (fuel : nat) :
  forall s : strings.bytes,
    forallb asciiSpace s = true ->
    (List.length s <= fuel)%nat ->
    strings.trimLoop strings.spaceEncodings fuel s = [].
Proof.
  induction fuel as [|fuel IH]; intros s Hs Hlen.
  - destruct s; [reflexivity | cbn in Hlen; lia].
  - cbn [strings.trimLoop]. destruct s as [|c s].
    + vm_compute. reflexivity.
    + cbn [forallb] in Hs. apply andb_prop in Hs as [Hc Hs].
      rewrite (stripSpace_asciiSpace c s Hc).
      apply IH; [exact Hs | cbn in Hlen; lia].
Qed.

Lemma TrimSpace_asciiSpace (s : string) :
  forallb asciiSpace (list_ascii_of_string s) = true ->
  strings.TrimSpace s = "".
Proof.
  intros H. unfold strings.TrimSpace, strings.trimLeftSpace.
  rewrite (trimLoop_asciiSpace _ _ H (le_n _)). reflexivity.
Qed.

Lemma stripSpace_no_prefix (encodings : list strings.bytes) (s : strings.bytes) :
  (forall enc rest, In enc encodings -> s <> (enc ++ rest)%list) ->
  strings.stripSpace encodings s = None.
Proof.
  intros H. destruct (strings.stripSpace encodings s) as [rest|] eqn:E;
    [|reflexivity].
  destruct (stripSpace_some _ _ _ E) as (enc & Hin & Hs).
  destruct (H enc rest Hin Hs).
Qed.

Lemma trimLoop_fixed (encodings : list strings.bytes) (fuel : nat)
    (s : strings.bytes) :
  strings.stripSpace encodings s = None ->
  strings.trimLoop encodings fuel s = s.
Proof.
  intros H. destruct fuel; cbn [strings.trimLoop]; [reflexivity|].
  rewrite H. reflexivity.
Qed.

(** Trimming a trimmed text changes nothing. *)
Lemma TrimSpace_idempotent (s : string) :
  strings.TrimSpace (strings.TrimSpace s) = strings.TrimSpace s.
Proof.
  destruct (TrimSpace_spec s) as (_ & Hleft & Hright). cbv zeta in *.
  set (t := list_ascii_of_string (strings.TrimSpace s)) in *.
  unfold strings.TrimSpace at 1. fold t.
  unfold strings.trimLeftSpace.
  rewrite (trimLoop_fixed _ _ t (stripSpace_no_prefix _ _ Hleft)).
  unfold strings.trimRightSpace.
  rewrite trimLoop_fixed.
  - rewrite rev_involutive. unfold t.
    apply string_of_list_ascii_of_string.
  - apply stripSpace_no_prefix. intros encR rest Hin Ht.
    apply in_map_iff in Hin as (enc & <- & Hin).
    apply (Hright enc (rev rest) Hin).
    rewrite <- (rev_involutive t), Ht, rev_app_distr, rev_involutive.
    reflexivity.
Qed.

(** Trimming brings no separator in. *)
Lemma TrimSpace_noSeparator (s : string) :
  noSeparator s = true -> noSeparator (strings.TrimSpace s) = true.
Proof.
  unfold noSeparator. intros H. apply negb_true_iff in H.
  destruct (TrimSpace_spec s) as ((before & after & _ & _ & Hs) & _).
  cbv zeta in Hs. rewrite Hs, !existsb_app in H.
  apply orb_false_elim in H as [_ H]. apply orb_false_elim in H as [H _].
  rewrite H. reflexivity.
Qed.

(** A candidate is not empty, holds no separator, and is trimmed. *)
Lemma candidates_shape (str ddl : string) :
  In ddl (candidates str) ->
  ddl <> "" /\ noSeparator ddl = true /\ strings.TrimSpace ddl = ddl.
Proof.
  unfold candidates. intros H.
  apply filter_In in H as [H Hlen].
  apply in_map_iff in H as (piece & <- & Hpiece).
  split; [|split].
  - intros E. rewrite E in Hlen. discriminate Hlen.
  - apply TrimSpace_noSeparator. unfold noSeparator.
    pose proof (Split_pieces_without_sep str ";"%char) as Hall.
    rewrite Forall_forall in Hall. rewrite (Hall piece Hpiece). reflexivity.
  - apply TrimSpace_idempotent.
Qed.

(** ** What [parseDDLs] returns *)

Section SplitterResults.

Variable ParseFloat : string -> float * option strconv.NumError.
Variable ParseWithMode :
  string -> sqlparser.ParserMode -> sqlparser.Statement + error.
Variable GoSyntax : sqlparser.DDL.t -> string.

Local Abbreviation parseDDL := (parseDDL ParseFloat ParseWithMode GoSyntax).
Local Abbreviation parseDDLs := (parseDDLs ParseFloat ParseWithMode GoSyntax).
Local Abbreviation parsesTo := (parsesTo ParseFloat ParseWithMode GoSyntax).
Local Abbreviation loop := (parseDDLsLoop ParseFloat ParseWithMode GoSyntax).

(** The slice built so far is only ever appended to. *)
Lemma loop_result (mode : GeneratorMode) (ddls : list string) :
  forall result,
    loop mode ddls result
    = ((result ++ fst (loop mode ddls []))%list, snd (loop mode ddls [])).
Proof.
  induction ddls as [|ddl ddls IH]; intros result; cbn [parseDDLsLoop].
  - cbn [fst snd]. rewrite app_nil_r. reflexivity.
  - destruct (len (strings.TrimSpace ddl) =? 0); [apply IH|].
    destruct (parseDDL mode (strings.TrimSpace ddl)) as [parsed|err].
    + rewrite (IH (result ++ [parsed])%list), (IH ([] ++ [parsed])%list).
      cbn [fst snd app]. rewrite <- app_assoc. reflexivity.
    + cbn [fst snd]. rewrite app_nil_r. reflexivity.
Qed.

Lemma loop_app (mode : GeneratorMode) (ddls1 ddls2 : list string) :
  forall result,
    loop mode (ddls1 ++ ddls2)%list result
    = match loop mode ddls1 result with
      | (result1, None) => loop mode ddls2 result1
      | (result1, Some err) => (result1, Some err)
      end.
Proof.
  induction ddls1 as [|ddl ddls1 IH]; intros result;
    cbn [app parseDDLsLoop]; [reflexivity|].
  destruct (len (strings.TrimSpace ddl) =? 0); [apply IH|].
  destruct (parseDDL mode (strings.TrimSpace ddl)); [apply IH | reflexivity].
Qed.

(** X10.  A batch made of semicolons and ASCII white space only --- the
    empty batch among them --- gives no statement and no error, whatever the
    grammar. *)
Theorem parseDDLs_blank (mode : GeneratorMode) (str : string) :
  blankBatch str = true -> parseDDLs mode str = ([], None).
Proof.
  intros Hblank. unfold parseDDLs.
  assert (Hpieces : forall piece, In piece (strings.Split str ";"%char) ->
                                  strings.TrimSpace piece = "").
  { intros piece Hp. apply TrimSpace_asciiSpace. apply forallb_forall.
    intros c Hc.
    unfold blankBatch in Hblank. rewrite forallb_forall in Hblank.
    specialize (Hblank c (Split_pieces_bytes _ _ _ _ Hp Hc)).
    pose proof (Split_pieces_without_sep str ";"%char) as Hall.
    rewrite Forall_forall in Hall. specialize (Hall piece Hp).
    destruct (Ascii.eqb_spec c ";"%char) as [E|Hne]; [|exact Hblank].
    assert (existsb (Ascii.eqb ";"%char) (list_ascii_of_string piece) = true)
      as Habs.
    { apply existsb_exists. exists c. split; [exact Hc|].
      rewrite E. apply Ascii.eqb_refl. }
    congruence. }
  induction (strings.Split str ";"%char) as [|piece pieces IH];
    cbn [parseDDLsLoop]; [reflexivity|].
  rewrite (Hpieces piece (or_introl eq_refl)). cbn [len String.length Z.eqb Z.of_nat].
  apply IH. intros p Hp. apply Hpieces. right. exact Hp.
Qed.

(** X11.  Batches compose: the batch [str1 ; str2] gives the statements of
    [str1] followed by the outcome of [str2] when [str1] has no error, and
    just the outcome of [str1] when it has one --- nothing of [str2] is
    looked at then. *)
Theorem parseDDLs_concat (mode : GeneratorMode) (str1 str2 : string) :
  parseDDLs mode (str1 ++ String ";"%char str2)
  = match parseDDLs mode str1 with
    | (ds1, None) =>
        ((ds1 ++ fst (parseDDLs mode str2))%list, snd (parseDDLs mode str2))
    | (ds1, Some err) => (ds1, Some err)
    end.
Proof.
  unfold parseDDLs. rewrite Split_app, loop_app.
  destruct (loop mode (strings.Split str1 ";"%char) []) as [ds1 [err|]];
    [reflexivity|].
  apply loop_result.
Qed.

(** X12.  A separator at the end of the batch changes nothing. *)
Theorem parseDDLs_trailing_separator (mode : GeneratorMode) (str : string) :
  parseDDLs mode (str ++ ";") = parseDDLs mode str.
Proof.
  unfold parseDDLs. rewrite Split_app, loop_app.
  destruct (loop mode (strings.Split str ";"%char) []) as [ds [err|]];
    reflexivity.
Qed.

Lemma parsesTo_statements (mode : GeneratorMode)
    (cands : list string) (ds : list DDL) :
  Forall2 (parsesTo mode) cands ds ->
  map DDL_statement ds = cands /\ List.length ds = List.length cands.
Proof.
  intros H. induction H as [|c d cands ds Hhead Htail [IHm IHl]];
    [split; reflexivity|].
  cbn [map List.length].
  rewrite (parseDDL_statement _ _ _ mode c d Hhead), IHm, IHl.
  split; reflexivity.
Qed.

(** The statement texts returned are candidates of the batch. *)
Lemma parseDDLs_statements_in_candidates (mode : GeneratorMode) (str : string) :
  forall d, In d (fst (parseDDLs mode str)) ->
            In (DDL_statement d) (candidates str).
Proof.
  intros d Hd. unfold parseDDLs in Hd.
  destruct (candidates_outcome ParseFloat ParseWithMode GoSyntax mode
              (candidates str))
    as [[ds Hall]|(before & ddl & after & ds & err & Hsplit & Hbefore & Herr)].
  - pose proof Hall as Hall'. unfold candidates in Hall'.
    rewrite (parseDDLsLoop_all _ _ _ mode _ [] ds Hall') in Hd.
    cbn [app fst] in Hd.
    destruct (parsesTo_statements _ _ _ Hall) as [Hm _].
    rewrite <- Hm. apply in_map. exact Hd.
  - pose proof Hsplit as Hsplit'. unfold candidates in Hsplit'.
    rewrite (parseDDLsLoop_stops _ _ _ mode _ [] before ddl after ds err
               Hsplit' Hbefore Herr) in Hd.
    cbn [app fst] in Hd.
    destruct (parsesTo_statements _ _ _ Hbefore) as [Hm _].
    rewrite Hsplit. apply in_or_app. left.
    rewrite <- Hm. apply in_map. exact Hd.
Qed.

(** X13.  The statement texts of the values [parseDDLs] returns are the
    first candidates of the batch, in order.  Without an error they are all
    the candidates; with one, the error is that of the next candidate, the
    one right after those returned. *)
Theorem parseDDLs_statements_are_leading_candidates
    (mode : GeneratorMode) (str : string) :
  let ds := fst (parseDDLs mode str) in
  map DDL_statement ds = firstn (List.length ds) (candidates str) /\
  match snd (parseDDLs mode str) with
  | None => List.length ds = List.length (candidates str)
  | Some err =>
      exists ddl,
        nth_error (candidates str) (List.length ds) = Some ddl /\
        parseDDL mode ddl = inr err
  end.
Proof.
  cbv zeta. unfold parseDDLs, candidates.
  destruct (candidates_outcome ParseFloat ParseWithMode GoSyntax mode
              (candidates str))
    as [[ds Hall]|(before & ddl & after & ds & err & Hsplit & Hbefore & Herr)].
  - unfold candidates in Hall.
    rewrite (parseDDLsLoop_all _ _ _ mode _ [] ds Hall). cbn [app fst snd].
    destruct (parsesTo_statements _ _ _ Hall) as [Hm Hl].
    rewrite Hm, Hl, firstn_all. split; reflexivity.
  - unfold candidates in Hsplit.
    rewrite (parseDDLsLoop_stops _ _ _ mode _ [] before ddl after ds err
               Hsplit Hbefore Herr).
    cbn [app fst snd].
    destruct (parsesTo_statements _ _ _ Hbefore) as [Hm Hl].
    rewrite Hsplit, Hm, Hl. split.
    + rewrite firstn_app, firstn_all, Nat.sub_diag.
      cbn [firstn]. rewrite app_nil_r. reflexivity.
    + exists ddl. split; [|exact Herr].
      rewrite nth_error_app2, Nat.sub_diag by apply le_n. reflexivity.
Qed.

(** X14.  No statement text that [parseDDLs] returns is empty, contains a
    semicolon, or begins or ends with white space: a semicolon always ends a
    statement, also inside a quoted string or a comment. *)
Theorem parseDDLs_statement_shape (mode : GeneratorMode) (str : string) :
  Forall (fun d =>
            DDL_statement d <> "" /\
            noSeparator (DDL_statement d) = true /\
            strings.TrimSpace (DDL_statement d) = DDL_statement d)
    (fst (parseDDLs mode str)).
Proof.
  apply Forall_forall. intros d Hd.
  apply candidates_shape with (str := str).
  apply (parseDDLs_statements_in_candidates mode str d Hd).
Qed.

(** X15.  On a text without semicolon [parseDDLs] is [parseDDL] on the
    trimmed text: one statement or its error, and nothing at all when the
    trimmed text is empty. *)
Theorem parseDDLs_single (mode : GeneratorMode) (str : string) :
  noSeparator str = true ->
  parseDDLs mode str
  = if len (strings.TrimSpace str) =? 0 then ([], None)
    else match parseDDL mode (strings.TrimSpace str) with
         | inl d => ([d], None)
         | inr err => ([], Some err)
         end.
Proof.
  unfold noSeparator. intros H. apply negb_true_iff in H.
  unfold parseDDLs. rewrite (Split_without_sep _ _ H).
  cbn [parseDDLsLoop].
  destruct (len (strings.TrimSpace str) =? 0); [reflexivity|].
  destruct (parseDDL mode (strings.TrimSpace str)); reflexivity.
Qed.

End SplitterResults.

Lemma parseDDLsLoop_ext
    (ParseFloat : string -> float * option strconv.NumError)
    (ParseWithMode ParseWithMode' :
       string -> sqlparser.ParserMode -> sqlparser.Statement + error)
    (GoSyntax : sqlparser.DDL.t -> string)
    (mode mode' : GeneratorMode) (ddls : list string) :
  (forall ddl,
     parseDDL ParseFloat ParseWithMode' GoSyntax mode' ddl
     = parseDDL ParseFloat ParseWithMode GoSyntax mode ddl) ->
  forall result,
    parseDDLsLoop ParseFloat ParseWithMode' GoSyntax mode' ddls result
    = parseDDLsLoop ParseFloat ParseWithMode GoSyntax mode ddls result.
Proof.
  intros Hsame. induction ddls as [|ddl ddls IH]; intros result;
    cbn [parseDDLsLoop]; [reflexivity|].
  destruct (len (strings.TrimSpace ddl) =? 0); [apply IH|].
  rewrite Hsame.
  destruct (parseDDL ParseFloat ParseWithMode GoSyntax mode
              (strings.TrimSpace ddl)); [apply IH | reflexivity].
Qed.

(** X9.  [parseDDLs] reads the whole batch in one parser mode: two modes
    that select the same parser mode give the same result on every batch, so
    any mode but [GeneratorModePostgres] reads the batch as MySQL; and the
    result depends on the grammar only through its answers in that parser
    mode. *)
Theorem parseDDLs_one_parser_mode
    (ParseFloat : string -> float * option strconv.NumError)
    (ParseWithMode ParseWithMode' :
       string -> sqlparser.ParserMode -> sqlparser.Statement + error)
    (GoSyntax : sqlparser.DDL.t -> string)
    (mode mode' : GeneratorMode) (str : string) :
  parserModeOf mode' = parserModeOf mode ->
  (forall ddl,
     ParseWithMode' ddl (parserModeOf mode)
     = ParseWithMode ddl (parserModeOf mode)) ->
  parseDDLs ParseFloat ParseWithMode' GoSyntax mode' str
  = parseDDLs ParseFloat ParseWithMode GoSyntax mode str.
Proof.
  intros Hmode Hagree. unfold parseDDLs. apply parseDDLsLoop_ext.
  intros ddl. unfold parseDDL. rewrite Hmode, Hagree. reflexivity.
Qed.

(** ** Instances of the further properties *)

Lemma parseValue_kind_one_to_one_witness :
  let val1 := Toy.lit sqlparser.IntVal "1" in
  let val2 := Toy.lit sqlparser.HexVal "x'1F'" in
  exists v1 v2,
    parseValue Toy.ParseFloat (Some val1) = Some v1 /\
    parseValue Toy.ParseFloat (Some val2) = Some v2 /\
    (Value.valueType v1 = Value.valueType v2 <->
     sqlparser.SQLVal.Type_ val1 = sqlparser.SQLVal.Type_ val2).
Proof.
  cbv zeta. do 2 eexists.
  split; [reflexivity|]. split; [reflexivity|].
  apply (parseValue_kind_one_to_one Toy.ParseFloat
           (Toy.lit sqlparser.IntVal "1") (Toy.lit sqlparser.HexVal "x'1F'"));
    reflexivity.
Defined.

Lemma parseValue_single_payload_witness :
  let val := Toy.lit sqlparser.HexNum "0x1F" in
  exists v,
    parseValue Toy.ParseFloat (Some val) = Some v /\
    Value.valueType v <> ValueTypeStr /\
    Value.strVal v = "".
Proof.
  cbv zeta. eexists. split; [reflexivity|]. split; [discriminate|].
  apply (parseValue_single_payload Toy.ParseFloat
           (Toy.lit sqlparser.HexNum "0x1F") _ eq_refl).
  discriminate.
Defined.

Lemma parseDDL_keeps_statement_witness :
  exists d,
    parseDDL Toy.ParseFloat Toy.ParseWithMode Toy.GoSyntax GeneratorModeMysql
      "CREATE INDEX idx ON t (col)" = inl d /\
    DDL_statement d = "CREATE INDEX idx ON t (col)".
Proof.
  eexists. split; [vm_compute; reflexivity|].
  apply (parseDDL_keeps_statement Toy.ParseFloat Toy.ParseWithMode
           Toy.GoSyntax GeneratorModeMysql "CREATE INDEX idx ON t (col)").
  vm_compute. reflexivity.
Defined.

Lemma parseDDL_success_inversion_witness :
  exists d stmt,
    parseDDL Toy.ParseFloat Toy.ParseWithMode Toy.GoSyntax GeneratorModeMysql
      "CREATE TABLE a (id INT)" = inl d /\
    Toy.ParseWithMode "CREATE TABLE a (id INT)"
      (parserModeOf GeneratorModeMysql) = inl (sqlparser.DDLStmt stmt) /\
    In (sqlparser.DDL.Action stmt) supportedActions.
Proof.
  eexists.
  destruct (parseDDL_success_inversion Toy.ParseFloat Toy.ParseWithMode
              Toy.GoSyntax GeneratorModeMysql "CREATE TABLE a (id INT)" _
              eq_refl) as (stmt & Hparse & Haction & _).
  exists stmt. split; [reflexivity|]. split; [exact Hparse | exact Haction].
Defined.

Lemma parseDDL_index_fields_witness :
  let ddl := "ALTER TABLE t ADD PRIMARY KEY (a)" in
  let index :=
    {| Index.name := "PRIMARY"; Index.indexType := "";
       Index.columns :=
         [ {| IndexColumn.column := "a"; IndexColumn.length := None |} ];
       Index.primary := false; Index.unique := false |} in
  parseDDL Toy.ParseFloat Toy.ParseWithMode Toy.GoSyntax GeneratorModeMysql ddl
    = inl (AddPrimaryKey ddl "t" index) /\
  DDL_index (AddPrimaryKey ddl "t" index) = Some index /\
  Index.primary index = false.
Proof.
  cbv zeta. split; [reflexivity|]. split; [reflexivity|].
  apply (proj1 (parseDDL_index_fields Toy.ParseFloat Toy.ParseWithMode
                  Toy.GoSyntax GeneratorModeMysql
                  "ALTER TABLE t ADD PRIMARY KEY (a)"
                  (AddPrimaryKey "ALTER TABLE t ADD PRIMARY KEY (a)" "t" _)
                  _ eq_refl eq_refl)).
Defined.

Lemma parseDDL_error_cases_witness :
  parseDDL Toy.ParseFloat Toy.ParseWithMode Toy.GoSyntax GeneratorModeMysql
    "DROP TABLE a" = inr (UnsupportedAction "drop" "DROP TABLE a") /\
  exists stmt,
    Toy.ParseWithMode "DROP TABLE a" (parserModeOf GeneratorModeMysql)
      = inl (sqlparser.DDLStmt stmt) /\
    ~ In (sqlparser.DDL.Action stmt) supportedActions.
Proof.
  split; [vm_compute; reflexivity|].
  destruct (parseDDL_error_cases Toy.ParseFloat Toy.ParseWithMode Toy.GoSyntax
              GeneratorModeMysql "DROP TABLE a"
              (UnsupportedAction "drop" "DROP TABLE a") eq_refl)
    as [H|[(name & H & _)|(stmt & Hparse & [[Hno _]|(Hin & _)])]].
  - discriminate H.
  - discriminate H.
  - exists stmt. split; [exact Hparse | exact Hno].
  - exfalso. inversion Hparse; subst.
    cbn in Hin. destruct Hin as [H|[H|[H|[]]]]; discriminate H.
Defined.

Lemma parseDDLs_one_parser_mode_witness :
  parserModeOf 7 = parserModeOf GeneratorModeMysql /\
  parseDDLs Toy.ParseFloat Toy.ParseMysqlOnly Toy.GoSyntax 7
    "CREATE TABLE `c` (id INT); CREATE TABLE a (id INT)"
  = parseDDLs Toy.ParseFloat Toy.ParseWithMode Toy.GoSyntax GeneratorModeMysql
      "CREATE TABLE `c` (id INT); CREATE TABLE a (id INT)".
Proof.
  split; [reflexivity|].
  apply (parseDDLs_one_parser_mode Toy.ParseFloat Toy.ParseWithMode
           Toy.ParseMysqlOnly Toy.GoSyntax GeneratorModeMysql 7).
  - reflexivity.
  - intros ddl. reflexivity.
Defined.

Lemma parseDDLs_blank_witness :
  blankBatch " ; ;;  " = true /\
  parseDDLs Toy.ParseFloat Toy.ParseWithMode Toy.GoSyntax GeneratorModeMysql
    " ; ;;  " = ([], None).
Proof.
  split; [reflexivity|].
  apply (parseDDLs_blank Toy.ParseFloat Toy.ParseWithMode Toy.GoSyntax
           GeneratorModeMysql " ; ;;  ").
  reflexivity.
Defined.

Lemma parseDDLs_single_witness :
  noSeparator "  CREATE TABLE a (id INT) " = true /\
  strings.TrimSpace "  CREATE TABLE a (id INT) " = "CREATE TABLE a (id INT)" /\
  exists d,
    parseDDLs Toy.ParseFloat Toy.ParseWithMode Toy.GoSyntax GeneratorModeMysql
      "  CREATE TABLE a (id INT) " = ([d], None).
Proof.
  split; [reflexivity|]. split; [vm_compute; reflexivity|].
  eexists.
  rewrite (parseDDLs_single Toy.ParseFloat Toy.ParseWithMode Toy.GoSyntax
             GeneratorModeMysql "  CREATE TABLE a (id INT) " eq_refl).
  vm_compute. reflexivity.
Defined.
